(** * nuke: a shallow embedding of [main.py]

    The program is a command-line tool that pages through collections of a
    hosting API (releases, tags, branches, issues) and deletes or closes
    their items.  Every function of [main.py] is embedded as a function of
    the same name; the bodies of its loops are functions of their own.
    Effects are explicit:

    - the HTTP transport ([requests.get], [requests.delete],
      [requests.patch]) is a function of an abstract world [W], taking a
      request to a response and a new world;
    - [print] and [time.sleep] are recorded, with the requests, in the trace
      of events a computation returns;
    - exceptions are a result of their own, and so is the exhaustion of the
      fuel that bounds the [while True] loops.

    What the embedding takes for granted: the transport answers every
    request with a response (it does not raise); the body of a listing
    response decodes to a list of JSON objects whose fields are scalars;
    and [main] starts from the namespace of parsed arguments, so the
    argument parser and its own usage errors are outside the model. *)

From Stdlib Require Import Ascii.
From stdpp Require Import gmap strings list fin_maps pretty.

Local Open Scope Z_scope.

(** ** Python values *)

Inductive pyval :=
  | PNone
  | PInt (n : Z)
  | PStr (s : string).

Global Instance pyval_eq_dec : EqDecision pyval.
Proof. solve_decision. Defined.

(** [str(v)], as an f-string interpolates it. *)
Definition py_str (v : pyval) : string :=
  match v with
  | PNone => "None"
  | PInt n => pretty n
  | PStr s => s
  end.

(** Truth value of [v] in a condition. *)
Definition truthy (v : pyval) : bool :=
  match v with
  | PNone => false
  | PInt n => negb (n =? 0)
  | PStr s => negb (String.eqb s "")
  end.

(** [a or b]. *)
Definition py_or (a b : pyval) : pyval := if truthy a then a else b.

(** [d.get(k)]: [None] when the key is absent. *)
Definition dict_get (d : gmap string pyval) (k : string) : pyval :=
  default PNone (d !! k).

(** [v in l] for a list of strings [l]. *)
Definition py_in (v : pyval) (l : list string) : bool :=
  bool_decide (v ∈ PStr <$> l).

(** [if limit and count >= limit], for [limit] an integer or [None]. *)
Definition limit_reached (limit : option Z) (count : Z) : bool :=
  match limit with
  | None => false
  | Some l => negb (l =? 0) && (l <=? count)
  end.

Inductive exn :=
  | ValueError (message : string)
  | KeyError (key : string)
  | TypeError
  | AttributeError
  | OverflowError
  | UnboundLocalError.

(** ** Constants *)

Definition GITHUB_API_URL : string := "https://api.github.com".
Definition EXCLUDED_BRANCHES : list string := ["main"; "master"].
Definition MAX_RETRIES : Z := 3.
Definition RETRY_DELAY : Z := 2.

(** ** Requests, responses and events *)

Record request := {
  req_method : string;
  req_url : string;
  req_headers : gmap string string;
  req_params : option (gmap string pyval);
  req_json : option (gmap string pyval)
}.

Record response := {
  status_code : Z;
  text : string;
  json : list (gmap string pyval)
}.

(** [requests.get(url, headers=headers, params=params, json=json)] and its
    siblings build these requests. *)
Definition get_request url headers params body : request :=
  {| req_method := "GET"; req_url := url; req_headers := headers;
     req_params := params; req_json := body |}.
Definition delete_request url headers body : request :=
  {| req_method := "DELETE"; req_url := url; req_headers := headers;
     req_params := None; req_json := body |}.
Definition patch_request url headers body : request :=
  {| req_method := "PATCH"; req_url := url; req_headers := headers;
     req_params := None; req_json := body |}.

(** [{"Authorization": f"Bearer {token}"}] *)
Definition auth_headers (token : string) : gmap string string :=
  {[ "Authorization" := "Bearer " +:+ token ]}.

(** ** Dates

    A model of the parts of Python's [datetime] and of
    [dateutil.relativedelta] that [main.py] calls: naive datetimes in the
    proleptic Gregorian calendar, years 1 to 9999, compared field by field.
    These are library functions, not code of the repository; the
    definitions follow the library's own algorithms. *)

Record datetime := {
  year : Z; month : Z; day : Z;
  hour : Z; minute : Z; second : Z; microsecond : Z
}.

Record timedelta := { td_days : Z; td_seconds : Z; td_microseconds : Z }.

Module Calendar.

Definition MINYEAR : Z := 1.
Definition MAXYEAR : Z := 9999.
Definition MAXORDINAL : Z := 3652059.
Definition MAX_DELTA_DAYS : Z := 999999999.

Definition is_leap (y : Z) : bool :=
  (y mod 4 =? 0) && (negb (y mod 100 =? 0) || (y mod 400 =? 0)).

Definition days_before_year (y : Z) : Z :=
  let y := y - 1 in y * 365 + y / 4 - y / 100 + y / 400.

Definition DAYS_IN_MONTH (m : Z) : Z :=
  match m with
  | 1 | 3 | 5 | 7 | 8 | 10 | 12 => 31
  | 4 | 6 | 9 | 11 => 30
  | 2 => 28
  | _ => -1
  end.

Definition DAYS_BEFORE_MONTH (m : Z) : Z :=
  match m with
  | 1 => 0 | 2 => 31 | 3 => 59 | 4 => 90 | 5 => 120 | 6 => 151
  | 7 => 181 | 8 => 212 | 9 => 243 | 10 => 273 | 11 => 304 | 12 => 334
  | _ => -1
  end.

Definition days_in_month (y m : Z) : Z :=
  if (m =? 2) && is_leap y then 29 else DAYS_IN_MONTH m.

Definition days_before_month (y m : Z) : Z :=
  DAYS_BEFORE_MONTH m + (if (2 <? m) && is_leap y then 1 else 0).

Definition ymd2ord (y m d : Z) : Z :=
  days_before_year y + days_before_month y m + d.

(** The inverse of [ymd2ord], by 400-, 100-, 4- and 1-year cycles. *)
Definition ord2ymd (n : Z) : Z * Z * Z :=
  let n := n - 1 in
  let n400 := n / 146097 in let n := n mod 146097 in
  let n100 := n / 36524 in let n := n mod 36524 in
  let n4 := n / 1461 in let n := n mod 1461 in
  let n1 := n / 365 in let n := n mod 365 in
  let y := n400 * 400 + 1 + n100 * 100 + n4 * 4 + n1 in
  if (n1 =? 4) || (n100 =? 4) then (y - 1, 12, 31)
  else
    let leapyear := (n1 =? 3) && (negb (n4 =? 24) || (n100 =? 3)) in
    let m := Z.shiftr (n + 50) 5 in
    let preceding :=
      DAYS_BEFORE_MONTH m + (if (2 <? m) && leapyear then 1 else 0) in
    if n <? preceding then
      let m := m - 1 in
      let preceding :=
        preceding
        - (DAYS_IN_MONTH m + (if (m =? 2) && leapyear then 1 else 0)) in
      (y, m, n - preceding + 1)
    else (y, m, n - preceding + 1).

Definition toordinal (dt : datetime) : Z :=
  ymd2ord (year dt) (month dt) (day dt).

(** [a < b] on tuples of integers. *)
Fixpoint tuple_ltb (a b : list Z) : bool :=
  match a, b with
  | x :: a', y :: b' => (x <? y) || ((x =? y) && tuple_ltb a' b')
  | [], _ :: _ => true
  | _, [] => false
  end.

(** [a < b] on datetimes: the fields are compared in order. *)
Definition datetime_ltb (a b : datetime) : bool :=
  let key dt :=
    [year dt; month dt; day dt; hour dt; minute dt; second dt;
     microsecond dt] in
  tuple_ltb (key a) (key b).

(** [timedelta(days=days, hours=hours)] *)
Definition timedelta_new (days hours : Z) : exn + timedelta :=
  let s := hours * 3600 in
  let d := days + s / 86400 in
  if MAX_DELTA_DAYS <? Z.abs d then inl OverflowError
  else inr {| td_days := d; td_seconds := s mod 86400;
              td_microseconds := 0 |}.

(** [dt - td] *)
Definition datetime_sub (dt : datetime) (td : timedelta) : exn + datetime :=
  let us := microsecond dt - td_microseconds td in
  let s := hour dt * 3600 + minute dt * 60 + second dt - td_seconds td
           + us / 1000000 in
  let d := toordinal dt - td_days td + s / 86400 in
  let s := s mod 86400 in
  if (0 <? d) && (d <=? MAXORDINAL) then
    let '(y, m, d) := ord2ymd d in
    inr {| year := y; month := m; day := d;
           hour := s / 3600; minute := s mod 3600 / 60; second := s mod 60;
           microsecond := us mod 1000000 |}
  else inl OverflowError.

(** [dt - relativedelta(months=months)]: the month count is split into
    years and months of the same sign, negated, and added to the year and
    month fields; the day is clipped to the length of the target month. *)
Definition sub_relativedelta_months (dt : datetime) (months : Z)
  : exn + datetime :=
  let s := Z.sgn months in
  let '(years, months) :=
    if 11 <? Z.abs months
    then (s * (months * s / 12), s * ((months * s) mod 12))
    else (0, months) in
  let years := - years in
  let months := - months in
  let y := year dt + years in
  let m := month dt in
  let '(y, m) :=
    if months =? 0 then (y, m)
    else
      let m := m + months in
      if 12 <? m then (y + 1, m - 12)
      else if m <? 1 then (y - 1, m + 12)
      else (y, m) in
  let d := Z.min (days_in_month y m) (day dt) in
  if (MINYEAR <=? y) && (y <=? MAXYEAR) then
    inr {| year := y; month := m; day := d;
           hour := hour dt; minute := minute dt; second := second dt;
           microsecond := microsecond dt |}
  else inl (ValueError "year is out of range").

End Calendar.

(** ** Strings *)

(** [s.endswith(suffix)] *)
Fixpoint endswith (s suffix : string) : bool :=
  String.eqb s suffix
  || match s with
     | "" => false
     | String _ s' => endswith s' suffix
     end.

(** [s[:-1]] *)
Fixpoint drop_last (s : string) : string :=
  match s with
  | "" => ""
  | String _ "" => ""
  | String a s' => String a (drop_last s')
  end.

(** The characters of a string. *)
Definition chars (s : string) : list ascii := String.list_ascii_of_string s.

(** [s.lstrip()] and [s.strip()] on the ASCII white space that [int]
    skips. *)
Fixpoint lstrip (l : list ascii) : list ascii :=
  match l with
  | [] => []
  | c :: l' => if Ascii.is_space c then lstrip l' else l
  end.

Definition strip (l : list ascii) : list ascii :=
  reverse (lstrip (reverse (lstrip l))).

(** The digits of an integer literal: decimal digits, where a single
    underscore may stand between two digits. *)
Fixpoint int_digits (l : list ascii) (acc : Z) (after_digit : bool)
  : option Z :=
  match l with
  | [] => if after_digit then Some acc else None
  | c :: l' =>
      match Ascii.is_nat c with
      | Some d => int_digits l' (10 * acc + Z.of_nat d) true
      | None =>
          if bool_decide (c = "_"%char) && after_digit
          then int_digits l' acc false
          else None
      end
  end.

Definition digit_count (l : list ascii) : nat :=
  length (filter (λ c, is_Some (Ascii.is_nat c)) l).

(** The interpreter's default limit on the digits of a decimal literal
    converted by [int]. *)
Definition INT_MAX_STR_DIGITS : nat := 4300.

(** [int(s)] for a string of ASCII characters; [None] stands for the
    [ValueError] it raises.  (For text outside ASCII the interpreter first
    maps Unicode digits and spaces to ASCII; that is not modelled.) *)
Definition py_int (s : string) : option Z :=
  let l := strip (chars s) in
  let '(sign, body) :=
    match l with
    | "-"%char :: l' => (-1, l')
    | "+"%char :: l' => (1, l')
    | _ => (1, l)
    end in
  if bool_decide (digit_count body ≤ INT_MAX_STR_DIGITS)%nat
  then (λ n, sign * n) <$> int_digits body 0 false
  else None.

(** [d[k]] *)
Definition dict_item (d : gmap string pyval) (k : string) : exn + pyval :=
  match d !! k with
  | Some v => inr v
  | None => inl (KeyError k)
  end.

(** [d[k] += 1] *)
Definition dict_incr (d : gmap string pyval) (k : string)
  : exn + gmap string pyval :=
  match d !! k with
  | Some (PInt n) => inr (<[k := PInt (n + 1)]> d)
  | Some _ => inl TypeError
  | None => inl (KeyError k)
  end.

(** [n < v] for an integer [n] and a value [v] read from a dict. *)
Definition int_lt_val (n : Z) (v : pyval) : exn + bool :=
  match v with
  | PInt m => inr (n <? m)
  | _ => inl TypeError
  end.

(** ** The cutoff calculator

    [now] is the value of [datetime.utcnow()] at the call. *)
Definition calculate_cutoff_date (now : datetime)
    (time_frame_gt : option string) : exn + datetime :=
  match time_frame_gt with
  | None => inl AttributeError
  | Some time_frame_gt =>
      if endswith time_frame_gt "m" then
        match py_int (drop_last time_frame_gt) with
        | None => inl (ValueError "invalid literal for int() with base 10")
        | Some months => Calendar.sub_relativedelta_months now months
        end
      else if endswith time_frame_gt "d" then
        match py_int (drop_last time_frame_gt) with
        | None => inl (ValueError "invalid literal for int() with base 10")
        | Some days =>
            match Calendar.timedelta_new days 0 with
            | inl e => inl e
            | inr td => Calendar.datetime_sub now td
            end
        end
      else if endswith time_frame_gt "h" then
        match py_int (drop_last time_frame_gt) with
        | None => inl (ValueError "invalid literal for int() with base 10")
        | Some hours =>
            match Calendar.timedelta_new 0 hours with
            | inl e => inl e
            | inr td => Calendar.datetime_sub now td
            end
        end
      else
        inl (ValueError "Invalid time frame format. Use '1m', '30d', or '24h'.")
  end.

(** ** Output

    One constructor for each [print] statement of [main.py], in the order of
    the source; the arguments are the values the f-string interpolates. *)
Inductive msg :=
  (* make_request_with_retries *)
  | MsgRateLimit
  | MsgAttemptFailed (attempt retries : Z) (body : string)
  (* delete_releases *)
  | MsgDeletingBefore (cutoff_date : datetime)
  | MsgFetchingReleases (page : pyval)
  | MsgFetchReleasesFailed (status : Z) (body : string)
  | MsgNoMoreReleases
  | MsgDeletedRelease (release_name : pyval) (release_date : datetime)
  | MsgReleaseLimit (limit : option Z)
  | MsgDeleteReleaseFailed (release_name : pyval) (status : Z)
  | MsgSkippingRelease (release_name : pyval) (release_date cutoff_date : datetime)
  | MsgNoMorePages
  | MsgTotalDeleted (deleted_count : Z)
  (* delete_tags *)
  | MsgFetchTagsFailed (body : string)
  | MsgDeletedTag (ref : pyval)
  | MsgTagLimit (limit : option Z)
  | MsgDeleteTagFailed (ref : pyval) (body : string)
  | MsgFinishedTags (deleted_count : Z)
  (* delete_branches *)
  | MsgFetchBranchesFailed (body : string)
  | MsgDeletedBranch (branch_name : pyval)
  | MsgBranchLimit (limit : option Z)
  | MsgDeleteBranchFailed (branch_name : pyval) (body : string)
  | MsgFinishedBranches (deleted_count : Z)
  (* close_issues *)
  | MsgFetchIssuesFailed (body : string)
  | MsgClosedIssue (title : pyval)
  | MsgIssueLimit (limit : option Z)
  | MsgCloseIssueFailed (title : pyval) (body : string)
  | MsgFinishedIssues (closed_count : Z)
  (* change_visibility_single, change_visibility_all, change_repository_name *)
  | MsgVisibilityChanged (repo : pyval) (visibility : string)
  | MsgVisibilityFailed (repo : pyval) (body : string)
  | MsgFetchReposFailed (body : string)
  | MsgChangingVisibility (repo_name : pyval)
  | MsgNameChanged (repo new_name : string)
  | MsgNameFailed (body : string)
  (* main *)
  | MsgNoType
  | MsgNameNeedsRepo
  | MsgAllReposNeedsVisibility
  | MsgNeedsVisibilityOrName
  | MsgNeedsTarget.

Inductive event :=
  | Request (req : request) (resp : response)
  | Print (m : msg)
  | Sleep (seconds : Z).

(** ** Computations *)

Inductive outcome (A : Type) :=
  | Ok (a : A)
  | Raise (e : exn)
  | OutOfFuel.
Global Arguments Ok {A} a.
Global Arguments Raise {A} e.
Global Arguments OutOfFuel {A}.

Record run (W A : Type) := Run {
  result : outcome A;
  world : W;
  trace : list event
}.
Global Arguments Run {W A} result world trace.
Global Arguments result {W A} r.
Global Arguments world {W A} r.
Global Arguments trace {W A} r.

Definition M (W A : Type) : Type := W → run W A.

Definition ret {W A} (a : A) : M W A := λ w, Run (Ok a) w [].

Definition bind {W A B} (m : M W A) (f : A → M W B) : M W B := λ w,
  let r := m w in
  match result r with
  | Ok a => let r' := f a (world r) in
            Run (result r') (world r') (trace r ++ trace r')
  | Raise e => Run (Raise e) (world r) (trace r)
  | OutOfFuel => Run OutOfFuel (world r) (trace r)
  end.

Definition raise {W A} (e : exn) : M W A := λ w, Run (Raise e) w [].
Definition out_of_fuel {W A} : M W A := λ w, Run OutOfFuel w [].
Definition emit {W} (e : event) : M W unit := λ w, Run (Ok ()) w [e].
Definition print {W} (m : msg) : M W unit := emit (Print m).
Definition sleep {W} (seconds : Z) : M W unit := emit (Sleep seconds).

Definition lift {W A} (x : exn + A) : M W A :=
  match x with
  | inl e => raise e
  | inr a => ret a
  end.

Global Instance M_ret {W} : MRet (M W) := @ret W.
Global Instance M_bind {W} : MBind (M W) := λ A B f m, bind m f.

(** How a loop body ends: the next iteration, [break], or a [return] from
    the enclosing function. *)
Inductive loop_ctl (S R : Type) :=
  | Continue (s : S)
  | Break (s : S)
  | Return (r : R).
Global Arguments Continue {S R} s.
Global Arguments Break {S R} s.
Global Arguments Return {S R} r.

(** [for x in l: body], with the variables the body assigns as state [s].
    The value is [inl s] when the list is exhausted or the loop is left by
    [break], and [inr r] when the function returns from inside it. *)
Fixpoint for_in {W A S R} (l : list A) (body : A → S → M W (loop_ctl S R))
    (s : S) : M W (S + R) :=
  match l with
  | [] => ret (inl s)
  | x :: l' =>
      c ← body x s;
      match c with
      | Continue s' => for_in l' body s'
      | Break s' => ret (inl s')
      | Return r => ret (inr r)
      end
  end.

(** [while True: body].  The value is [inl s] when the loop is left by
    [break] and [inr r] when the function returns from inside it. *)
Fixpoint while_true {W S R} (fuel : nat) (body : S → M W (loop_ctl S R))
    (s : S) : M W (S + R) :=
  match fuel with
  | O => out_of_fuel
  | Datatypes.S fuel' =>
      c ← body s;
      match c with
      | Continue s' => while_true fuel' body s'
      | Break s' => ret (inl s')
      | Return r => ret (inr r)
      end
  end.

(** ** The program *)

Section Program.

(** The world the transport talks to, and the transport itself: one HTTP
    exchange.  [strptime] is [datetime.strptime(s, "%Y-%m-%dT%H:%M:%SZ")],
    [None] when it raises [ValueError]. *)
Context {W : Type}.
Variable transport : W → request → response * W.
Variable strptime : string → option datetime.

Definition send (req : request) : M W response := λ w,
  let '(resp, w') := transport w req in
  Run (Ok resp) w' [Request req resp].

Definition requests_get url headers params body : M W response :=
  send (get_request url headers params body).
Definition requests_delete url headers body : M W response :=
  send (delete_request url headers body).
Definition requests_patch url headers body : M W response :=
  send (patch_request url headers body).

(** *** Helper functions *)

(** The body of [for attempt in range(retries)]; the loop state is the
    variable [response], unbound before the first iteration. *)
Definition make_request_attempt (url method : string)
    (headers : gmap string string) (json : option (gmap string pyval))
    (retries : Z) (attempt : Z) (_ : option response)
    : M W (loop_ctl (option response) response) :=
  response ←
    (if bool_decide (method = "GET") then
       requests_get url headers None json
     else if bool_decide (method = "DELETE") then
       requests_delete url headers json
     else if bool_decide (method = "PATCH") then
       requests_patch url headers json
     else raise (ValueError ("Unsupported HTTP method: " +:+ method)));
  if status_code response =? 403 then
    print MsgRateLimit;;
    sleep 60;;
    mret (Continue (Some response))
  else if (status_code response =? 200) || (status_code response =? 204)
  then mret (Return response)
  else
    print (MsgAttemptFailed (attempt + 1) retries (text response));;
    sleep RETRY_DELAY;;
    mret (Continue (Some response)).

Definition make_request_with_retries (url method : string)
    (headers : gmap string string) (json : option (gmap string pyval))
    (retries : Z) : M W response :=
  c ← for_in (seqZ 0 retries)
        (make_request_attempt url method headers json retries) None;
  match c with
  | inr response => mret response
  | inl (Some response) => mret response
  | inl None => raise UnboundLocalError
  end.

(** [datetime.strptime(v, "%Y-%m-%dT%H:%M:%SZ")] *)
Definition parse_created_at (v : pyval) : exn + datetime :=
  match v with
  | PStr s =>
      match strptime s with
      | Some dt => inr dt
      | None => inl (ValueError "time data does not match format")
      end
  | _ => inl TypeError
  end.

(** *** Cleanup functions *)

Definition releases_url (org repo : string) : string :=
  GITHUB_API_URL +:+ "/repos/" +:+ org +:+ "/" +:+ repo +:+ "/releases".

(** The body of [for release in releases]. *)
Definition delete_releases_item (url : string)
    (headers : gmap string string) (limit : option Z)
    (cutoff_date : datetime) (release : gmap string pyval)
    (deleted_count : Z) : M W (loop_ctl Z unit) :=
  created_at ← lift (dict_item release "created_at");
  release_date ← lift (parse_created_at created_at);
  let release_name :=
    py_or (py_or (dict_get release "name") (dict_get release "tag_name"))
          (PStr "Unnamed Release") in
  if Calendar.datetime_ltb release_date cutoff_date then
    release_id ← lift (dict_item release "id");
    let delete_url := url +:+ "/" +:+ py_str release_id in
    delete_response ← requests_delete delete_url headers None;
    if status_code delete_response =? 204 then
      print (MsgDeletedRelease release_name release_date);;
      let deleted_count := deleted_count + 1 in
      if limit_reached limit deleted_count then
        print (MsgReleaseLimit limit);;
        mret (Return ())
      else mret (Continue deleted_count)
    else
      print (MsgDeleteReleaseFailed release_name
               (status_code delete_response));;
      mret (Continue deleted_count)
  else
    print (MsgSkippingRelease release_name release_date cutoff_date);;
    mret (Continue deleted_count).

(** The body of [while True] in [delete_releases]; the loop state is the
    [params] dict and the counter. *)
Definition delete_releases_page (url : string)
    (headers : gmap string string) (limit : option Z)
    (cutoff_date : datetime) (st : gmap string pyval * Z)
    : M W (loop_ctl (gmap string pyval * Z) unit) :=
  let '(params, deleted_count) := st in
  page ← lift (dict_item params "page");
  print (MsgFetchingReleases page);;
  response ← requests_get url headers (Some params) None;
  if negb (status_code response =? 200) then
    print (MsgFetchReleasesFailed (status_code response) (text response));;
    mret (Break (params, deleted_count))
  else
    let releases := json response in
    if bool_decide (releases = []) then
      print MsgNoMoreReleases;;
      mret (Break (params, deleted_count))
    else
      c ← for_in releases
            (delete_releases_item url headers limit cutoff_date)
            deleted_count;
      match c with
      | inr r => mret (Return r)
      | inl deleted_count =>
          per_page ← lift (dict_item params "per_page");
          short ← lift (int_lt_val (Z.of_nat (length releases)) per_page);
          if (short : bool) then
            print MsgNoMorePages;;
            mret (Break (params, deleted_count))
          else
            params ← lift (dict_incr params "page");
            mret (Continue (params, deleted_count))
      end.

Definition delete_releases (fuel : nat) (now : datetime)
    (org repo token : string) (limit : option Z)
    (time_frame_gt : option string) : M W unit :=
  let url := releases_url org repo in
  let headers := auth_headers token in
  let params : gmap string pyval :=
    {[ "per_page" := PInt 50; "page" := PInt 1 ]} in
  let deleted_count := 0 in
  cutoff_date ← lift (calculate_cutoff_date now time_frame_gt);
  print (MsgDeletingBefore cutoff_date);;
  r ← while_true fuel (delete_releases_page url headers limit cutoff_date)
        (params, deleted_count);
  match r with
  | inl (_, deleted_count) => print (MsgTotalDeleted deleted_count)
  | inr _ => mret ()
  end.

Definition tags_url (org repo : string) : string :=
  GITHUB_API_URL +:+ "/repos/" +:+ org +:+ "/" +:+ repo +:+ "/git/refs/tags".

Definition tag_delete_url (org repo : string) (ref : pyval) : string :=
  GITHUB_API_URL +:+ "/repos/" +:+ org +:+ "/" +:+ repo +:+ "/git/"
    +:+ py_str ref.

(** The body of [for tag in tags]. *)
Definition delete_tags_item (org repo : string)
    (headers : gmap string string) (limit : option Z)
    (tag : gmap string pyval) (deleted_count : Z)
    : M W (loop_ctl Z unit) :=
  ref ← lift (dict_item tag "ref");
  let delete_url := tag_delete_url org repo ref in
  delete_response ←
    make_request_with_retries delete_url "DELETE" headers None MAX_RETRIES;
  if status_code delete_response =? 204 then
    print (MsgDeletedTag ref);;
    let deleted_count := deleted_count + 1 in
    if limit_reached limit deleted_count then
      print (MsgTagLimit limit);;
      mret (Return ())
    else mret (Continue deleted_count)
  else
    print (MsgDeleteTagFailed ref (text delete_response));;
    mret (Continue deleted_count).

(** The body of [while True] in [delete_tags]. *)
Definition delete_tags_page (org repo : string)
    (headers : gmap string string) (limit : option Z)
    (st : gmap string pyval * Z)
    : M W (loop_ctl (gmap string pyval * Z) unit) :=
  let '(params, deleted_count) := st in
  response ←
    make_request_with_retries (tags_url org repo) "GET" headers
      (Some params) MAX_RETRIES;
  if negb (status_code response =? 200) then
    print (MsgFetchTagsFailed (text response));;
    mret (Return ())
  else
    let tags := json response in
    if bool_decide (tags = []) then mret (Break (params, deleted_count))
    else
      c ← for_in tags (delete_tags_item org repo headers limit)
            deleted_count;
      match c with
      | inr r => mret (Return r)
      | inl deleted_count =>
          params ← lift (dict_incr params "page");
          mret (Continue (params, deleted_count))
      end.

Definition delete_tags (fuel : nat) (org repo token : string)
    (limit : option Z) : M W unit :=
  let headers := auth_headers token in
  let params : gmap string pyval :=
    {[ "per_page" := PInt 50; "page" := PInt 1 ]} in
  let deleted_count := 0 in
  r ← while_true fuel (delete_tags_page org repo headers limit)
        (params, deleted_count);
  match r with
  | inl (_, deleted_count) => print (MsgFinishedTags deleted_count)
  | inr _ => mret ()
  end.

Definition branches_url (org repo : string) : string :=
  GITHUB_API_URL +:+ "/repos/" +:+ org +:+ "/" +:+ repo +:+ "/branches".

Definition branch_delete_url (org repo : string) (branch_name : pyval)
  : string :=
  GITHUB_API_URL +:+ "/repos/" +:+ org +:+ "/" +:+ repo
    +:+ "/git/refs/heads/" +:+ py_str branch_name.

(** The body of [for branch in branches]. *)
Definition delete_branches_item (org repo : string)
    (headers : gmap string string) (limit : option Z)
    (branch : gmap string pyval) (deleted_count : Z)
    : M W (loop_ctl Z unit) :=
  branch_name ← lift (dict_item branch "name");
  if negb (py_in branch_name EXCLUDED_BRANCHES) then
    let delete_url := branch_delete_url org repo branch_name in
    delete_response ←
      make_request_with_retries delete_url "DELETE" headers None
        MAX_RETRIES;
    if status_code delete_response =? 204 then
      print (MsgDeletedBranch branch_name);;
      let deleted_count := deleted_count + 1 in
      if limit_reached limit deleted_count then
        print (MsgBranchLimit limit);;
        mret (Return ())
      else mret (Continue deleted_count)
    else
      print (MsgDeleteBranchFailed branch_name (text delete_response));;
      mret (Continue deleted_count)
  else mret (Continue deleted_count).

(** The body of [while True] in [delete_branches]. *)
Definition delete_branches_page (org repo : string)
    (headers : gmap string string) (limit : option Z)
    (st : gmap string pyval * Z)
    : M W (loop_ctl (gmap string pyval * Z) unit) :=
  let '(params, deleted_count) := st in
  response ←
    make_request_with_retries (branches_url org repo) "GET" headers
      (Some params) MAX_RETRIES;
  if negb (status_code response =? 200) then
    print (MsgFetchBranchesFailed (text response));;
    mret (Return ())
  else
    let branches := json response in
    if bool_decide (branches = []) then mret (Break (params, deleted_count))
    else
      c ← for_in branches (delete_branches_item org repo headers limit)
            deleted_count;
      match c with
      | inr r => mret (Return r)
      | inl deleted_count =>
          params ← lift (dict_incr params "page");
          mret (Continue (params, deleted_count))
      end.

Definition delete_branches (fuel : nat) (org repo token : string)
    (limit : option Z) : M W unit :=
  let headers := auth_headers token in
  let params : gmap string pyval :=
    {[ "per_page" := PInt 50; "page" := PInt 1 ]} in
  let deleted_count := 0 in
  r ← while_true fuel (delete_branches_page org repo headers limit)
        (params, deleted_count);
  match r with
  | inl (_, deleted_count) => print (MsgFinishedBranches deleted_count)
  | inr _ => mret ()
  end.

Definition issues_url (org repo : string) : string :=
  GITHUB_API_URL +:+ "/repos/" +:+ org +:+ "/" +:+ repo +:+ "/issues".

(** The body of [for issue in issues]. *)
Definition close_issues_item (url : string)
    (headers : gmap string string) (limit : option Z)
    (issue : gmap string pyval) (closed_count : Z)
    : M W (loop_ctl Z unit) :=
  issue_number ← lift (dict_item issue "number");
  let patch_url := url +:+ "/" +:+ py_str issue_number in
  patch_response ←
    make_request_with_retries patch_url "PATCH" headers
      (Some {[ "state" := PStr "closed" ]}) MAX_RETRIES;
  if status_code patch_response =? 200 then
    title ← lift (dict_item issue "title");
    print (MsgClosedIssue title);;
    let closed_count := closed_count + 1 in
    if limit_reached limit closed_count then
      print (MsgIssueLimit limit);;
      mret (Return ())
    else mret (Continue closed_count)
  else
    title ← lift (dict_item issue "title");
    print (MsgCloseIssueFailed title (text patch_response));;
    mret (Continue closed_count).

(** The body of [while True] in [close_issues].  The listing call passes
    neither [params] nor a payload. *)
Definition close_issues_page (url : string)
    (headers : gmap string string) (limit : option Z)
    (st : gmap string pyval * Z)
    : M W (loop_ctl (gmap string pyval * Z) unit) :=
  let '(params, closed_count) := st in
  response ← make_request_with_retries url "GET" headers None MAX_RETRIES;
  if negb (status_code response =? 200) then
    print (MsgFetchIssuesFailed (text response));;
    mret (Return ())
  else
    let issues := json response in
    if bool_decide (issues = []) then mret (Break (params, closed_count))
    else
      c ← for_in issues (close_issues_item url headers limit) closed_count;
      match c with
      | inr r => mret (Return r)
      | inl closed_count =>
          params ← lift (dict_incr params "page");
          mret (Continue (params, closed_count))
      end.

Definition close_issues (fuel : nat) (org repo token : string)
    (limit : option Z) : M W unit :=
  let url := issues_url org repo in
  let headers := auth_headers token in
  let params : gmap string pyval :=
    {[ "state" := PStr "open"; "per_page" := PInt 50; "page" := PInt 1 ]} in
  let closed_count := 0 in
  r ← while_true fuel (close_issues_page url headers limit)
        (params, closed_count);
  match r with
  | inl (_, closed_count) => print (MsgFinishedIssues closed_count)
  | inr _ => mret ()
  end.

(** *** Change functions *)

(** [repo] is a string when [main] calls this function, and the ["name"]
    field of a listed repository when [change_visibility_all] does. *)
Definition change_visibility_single (org : string) (repo : pyval)
    (visibility token : string) : M W unit :=
  let url := GITHUB_API_URL +:+ "/repos/" +:+ org +:+ "/" +:+ py_str repo in
  let headers := auth_headers token in
  let payload : gmap string pyval := {[ "visibility" := PStr visibility ]} in
  response ←
    make_request_with_retries url "PATCH" headers (Some payload) MAX_RETRIES;
  if status_code response =? 200 then
    print (MsgVisibilityChanged repo visibility)
  else print (MsgVisibilityFailed repo (text response)).

Definition change_visibility_all (org visibility token : string)
    : M W unit :=
  let url := GITHUB_API_URL +:+ "/orgs/" +:+ org +:+ "/repos" in
  let headers := auth_headers token in
  response ← make_request_with_retries url "GET" headers None MAX_RETRIES;
  if negb (status_code response =? 200) then
    print (MsgFetchReposFailed (text response))
  else
    let repos := json response in
    for_in repos (λ repo (_ : unit),
      repo_name ← lift (dict_item repo "name");
      print (MsgChangingVisibility repo_name);;
      change_visibility_single org repo_name visibility token;;
      mret (Continue (R := unit) ())) ();;
    mret ().

Definition change_repository_name (org repo new_name token : string)
    : M W unit :=
  let url := GITHUB_API_URL +:+ "/repos/" +:+ org +:+ "/" +:+ repo in
  let headers := auth_headers token in
  let payload : gmap string pyval := {[ "name" := PStr new_name ]} in
  response ←
    make_request_with_retries url "PATCH" headers (Some payload) MAX_RETRIES;
  if status_code response =? 200 then print (MsgNameChanged repo new_name)
  else print (MsgNameFailed (text response)).

(** *** Main function

    [args] is the namespace [parser.parse_args()] returns: one of the two
    subcommands with its options, an option that was not given being
    [None] (or [False] for the flag). *)
Inductive args :=
  | Cleanup (org repo : string) (type time_frame_gt : option string)
      (limit : option Z) (token : string)
  | Change (org : string) (repo : option string) (all_repos : bool)
      (visibility change_name : option string) (token : string).

(** Truth value of an optional string argument. *)
Definition given (a : option string) : bool :=
  match a with
  | Some s => negb (String.eqb s "")
  | None => false
  end.

Definition main (fuel : nat) (now : datetime) (a : args) : M W unit :=
  match a with
  | Cleanup org repo type time_frame_gt limit token =>
      if bool_decide (type = Some "releases") then
        delete_releases fuel now org repo token limit time_frame_gt
      else if bool_decide (type = Some "tags") then
        delete_tags fuel org repo token limit
      else if bool_decide (type = Some "branches") then
        delete_branches fuel org repo token limit
      else if bool_decide (type = Some "issues") then
        close_issues fuel org repo token limit
      else print MsgNoType
  | Change org repo all_repos visibility change_name token =>
      if given change_name then
        if negb (given repo) then print MsgNameNeedsRepo
        else
          change_repository_name org (default "" repo)
            (default "" change_name) token
      else if all_repos then
        if given visibility then
          change_visibility_all org (default "" visibility) token
        else print MsgAllReposNeedsVisibility
      else if given repo then
        if given visibility then
          change_visibility_single org (PStr (default "" repo))
            (default "" visibility) token
        else print MsgNeedsVisibilityOrName
      else print MsgNeedsTarget
  end.

End Program.

(** ** Vocabulary of the specifications *)

(** The HTTP exchanges of a trace, in order. *)
Definition exchanges (tr : list event) : list (request * response) :=
  omap (λ e, match e with
             | Request req resp => Some (req, resp)
             | _ => None
             end) tr.

(** The request [make_request_with_retries] sends for a supported method. *)
Definition executor_request (url method : string)
    (headers : gmap string string) (json : option (gmap string pyval))
  : request :=
  {| req_method := method; req_url := url; req_headers := headers;
     req_params := None; req_json := json |}.

Definition supported (method : string) : Prop :=
  method = "GET" ∨ method = "DELETE" ∨ method = "PATCH".

(** A response the executor takes for a success. *)
Definition success (resp : response) : bool :=
  (status_code resp =? 200) || (status_code resp =? 204).

(** What one iteration of the executor's loop emits on [resp]. *)
Definition attempt_events (retries attempt : Z) (req : request)
    (resp : response) : list event :=
  Request req resp ::
  if status_code resp =? 403 then [Print MsgRateLimit; Sleep 60]
  else if success resp then []
  else [Print (MsgAttemptFailed (attempt + 1) retries (text resp));
        Sleep RETRY_DELAY].

(** Every event a computation emits, from any world, satisfies [P]. *)
Definition emits_only {W A} (P : event → Prop) (m : M W A) : Prop :=
  ∀ w, Forall P (trace (m w)).

(** ** Concrete worlds *)

(** A transport that replays a list of responses, and answers 404 once the
    list is exhausted. *)
Definition replay (w : list response) (_ : request)
  : response * list response :=
  match w with
  | resp :: w' => (resp, w')
  | [] => ({| status_code := 404; text := "Not Found"; json := [] |}, [])
  end.

(** A transport that always gives the same answer. *)
Definition constantly (resp : response) (w : unit) (_ : request)
  : response * unit := (resp, w).

Definition rate_limited : response :=
  {| status_code := 403; text := "rate limit exceeded"; json := [] |}.
Definition server_error : response :=
  {| status_code := 500; text := "server error"; json := [] |}.
Definition no_content : response :=
  {| status_code := 204; text := ""; json := [] |}.
Definition listing (items : list (gmap string pyval)) : response :=
  {| status_code := 200; text := ""; json := items |}.



(** A request of issue closing carries no query parameters, and a listing
    request no payload either. *)
Definition bare_listing (org repo : string) (e : event) : Prop :=
  match e with
  | Request req _ =>
      req_params req = None ∧
      (req_method req = "GET" →
       req_url req = issues_url org repo ∧ req_json req = None)
  | _ => True
  end.

(** The creation time of a release, when its ["created_at"] field is a
    string that [strptime] accepts. *)
Definition created_at_of (strptime : string → option datetime)
    (release : gmap string pyval) : option datetime :=
  match release !! "created_at" with
  | Some (PStr s) => strptime s
  | _ => None
  end.


(** The name a release is reported under. *)
Definition release_name_of (release : gmap string pyval) : pyval :=
  py_or (py_or (dict_get release "name") (dict_get release "tag_name"))
        (PStr "Unnamed Release").

(** The URL a release is deleted at: the releases URL and the ["id"]. *)
Definition release_delete_url (url : string) (release : gmap string pyval)
  : string :=
  url +:+ "/" +:+ py_str (dict_get release "id").

(** An event that is neither a delay nor a message of the retry loop. *)
Definition no_retry_event (e : event) : Prop :=
  match e with
  | Sleep _ | Print MsgRateLimit | Print (MsgAttemptFailed _ _ _) => False
  | _ => True
  end.

Global Arguments Calendar.datetime_ltb : simpl never.
Global Arguments Calendar.datetime_sub : simpl never.
Global Arguments Calendar.timedelta_new : simpl never.
Global Arguments Calendar.sub_relativedelta_months : simpl never.
Global Arguments py_or : simpl never.
Global Arguments py_str : simpl never.
Global Arguments py_int : simpl never.
Global Arguments dict_get : simpl never.
Global Arguments limit_reached : simpl never.

(** The [params] dict of the cleanup operations at their first page. *)
Definition first_page : gmap string pyval :=
  {[ "per_page" := PInt 50; "page" := PInt 1 ]}.

Definition tag_v1 : gmap string pyval := {[ "ref" := PStr "refs/tags/v1" ]}.

(** *** Integer literals *)

Definition is_digit (c : ascii) : bool :=
  bool_decide (is_Some (Ascii.is_nat c)).

(** The number a list of decimal digits denotes. *)
Definition digits_value (ds : list ascii) : Z :=
  foldl (λ acc c, 10 * acc + Z.of_nat (default 0%nat (Ascii.is_nat c))) 0 ds.




Definition example_now : datetime :=
  {| year := 2024; month := 3; day := 31;
     hour := 12; minute := 0; second := 5; microsecond := 17 |}.

(** *** What release cleanup did, read off its trace *)










(** The [params] dict holds a page number and a page size. *)
Definition paged (params : gmap string pyval) : Prop :=
  (∃ p, params !! "page" = Some (PInt p)) ∧
  (∃ n, params !! "per_page" = Some (PInt n)).

(** A parser for timestamps in the canonical form [YYYY-MM-DDTHH:MM:SSZ],
    for the examples; the properties hold for every [strptime]. *)
Definition strptime_utc (s : string) : option datetime :=
  let num (l : list ascii) : option Z :=
    if forallb is_digit l then Some (digits_value l) else None in
  match chars s with
  | [y1; y2; y3; y4; "-"; m1; m2; "-"; d1; d2; "T";
     h1; h2; ":"; mi1; mi2; ":"; s1; s2; "Z"]%char =>
      y ← num [y1; y2; y3; y4];
      m ← num [m1; m2];
      d ← num [d1; d2];
      h ← num [h1; h2];
      mi ← num [mi1; mi2];
      sec ← num [s1; s2];
      Some {| year := y; month := m; day := d;
              hour := h; minute := mi; second := sec; microsecond := 0 |}
  | _ => None
  end.

Definition release_1 : gmap string pyval :=
  {[ "id" := PInt 101; "name" := PStr "v1.0";
     "created_at" := PStr "2020-01-01T00:00:00Z" ]}.

(** *** How a computation may end *)

(** From every world, [m] ends with a value in [Q], or raises an exception
    in [P], or runs out of fuel and then [D] holds. *)
Definition ensures {W A} (Q : A → Prop) (P : exn → Prop) (D : Prop)
    (m : M W A) : Prop :=
  ∀ w, match result (m w) with
       | Ok a => Q a
       | Raise e => P e
       | OutOfFuel => D
       end.






(** *** Further vocabulary *)

(** The time a trace spends in [time.sleep]. *)
Definition slept (tr : list event) : Z :=
  foldr (λ e acc, match e with Sleep n => n + acc | _ => acc end) 0 tr.

(** The delay after a failed attempt. *)
Definition delay_after (resp : response) : Z :=
  if status_code resp =? 403 then 60 else RETRY_DELAY.

(** The options of a change command name something to do: a rename with its
    repository, or a visibility with its target. *)
Definition change_complete (repo : option string) (all_repos : bool)
    (visibility change_name : option string) : bool :=
  if given change_name then given repo
  else if all_repos then given visibility
  else given repo && given visibility.



(** A request of issue closing: a bare GET, or a PATCH that sets the state
    to closed. *)
Definition lists_or_closes (e : event) : Prop :=
  match e with
  | Request req _ =>
      (req_method req = "GET" ∧ req_json req = None) ∨
      (req_method req = "PATCH" ∧
       req_json req = Some {[ "state" := PStr "closed" ]})
  | _ => True
  end.

(** A request that renames [repo] of [org] to [new_name]. *)
Definition renames (org repo new_name token : string) (e : event) : Prop :=
  match e with
  | Request req _ =>
      req = {| req_method := "PATCH";
               req_url := GITHUB_API_URL +:+ "/repos/" +:+ org +:+ "/"
                          +:+ repo;
               req_headers := auth_headers token;
               req_params := None;
               req_json := Some {[ "name" := PStr new_name ]} |}
  | _ => True
  end.

(** What a bulk visibility change reports for a repository: that it takes
    it up, and whether the change went through. *)
Inductive visibility_step :=
  | Announced (repo_name : pyval)
  | Changed (repo_name : pyval)
  | NotChanged (repo_name : pyval).

Definition visibility_step_of (e : event) : option visibility_step :=
  match e with
  | Print (MsgChangingVisibility repo_name) => Some (Announced repo_name)
  | Print (MsgVisibilityChanged repo_name _) => Some (Changed repo_name)
  | Print (MsgVisibilityFailed repo_name _) => Some (NotChanged repo_name)
  | _ => None
  end.

Definition visibility_steps (tr : list event) : list visibility_step :=
  omap visibility_step_of tr.

(** The steps for one repository whose change went through or not. *)
Definition steps_for (repo : gmap string pyval) (ok : bool)
  : list visibility_step :=
  [Announced (dict_get repo "name");
   if ok then Changed (dict_get repo "name")
   else NotChanged (dict_get repo "name")].

Definition repo_a : gmap string pyval := {[ "name" := PStr "A" ]}.
Definition repo_b : gmap string pyval := {[ "name" := PStr "B" ]}.
Definition repo_c : gmap string pyval := {[ "name" := PStr "C" ]}.
Definition ok_200 : response :=
  {| status_code := 200; text := ""; json := [] |}.

(** A server that is stuck: it answers every request with status 200 and a
    non-empty list of items that all have a ["ref"], whatever was deleted
    and whatever page is asked for. *)
Definition stuck {W} (transport : W → request → response * W) : Prop :=
  ∀ w req,
    status_code (transport w req).1 = 200 ∧
    json (transport w req).1 ≠ [] ∧
    Forall (λ tag, is_Some (tag !! "ref")) (json (transport w req).1).

(** *** Pages asked for *)

(** The page number and the page size that a listing request carries in its
    query; requests other than GET list nothing. *)
Definition page_asked (e : event) : option (option pyval * option pyval) :=
  match e with
  | Request req _ =>
      if bool_decide (req_method req = "GET")
      then Some (req_params req ≫= (.!! "page"),
                 req_params req ≫= (.!! "per_page"))
      else None
  | _ => None
  end.

Definition pages_asked (tr : list event)
  : list (option pyval * option pyval) :=
  omap page_asked tr.

(** Page [p] of a listing that is read fifty entries at a time. *)
Definition page_of_fifty (p : Z) : option pyval * option pyval :=
  (Some (PInt p), Some (PInt 50)).

(** *** Counting events *)

(** The number of events of a trace that [hit] picks. *)
Definition tally (hit : event → bool) (tr : list event) : Z :=
  Z.of_nat (length (filter (λ e, hit e = true) tr)).

(** A request with [method] that the server answered with [status]. *)
Definition answered (method : string) (status : Z) (e : event) : bool :=
  match e with
  | Request req resp =>
      bool_decide (req_method req = method) && (status_code resp =? status)
  | _ => false
  end.

Definition count_answered (method : string) (status : Z) (tr : list event)
  : Z :=
  tally (answered method status) tr.

(** From every world, [m] ends with a value [a] after [h] picked events
    such that [Q a h], or ends otherwise after [h] picked events such that
    [E h]. *)
Definition tallies {W A} (hit : event → bool) (Q : A → Z → Prop)
    (E : Z → Prop) (m : M W A) : Prop :=
  ∀ w, match result (m w) with
       | Ok a => Q a (tally hit (trace (m w)))
       | _ => E (tally hit (trace (m w)))
       end.

(** A count that a positive limit has not stopped yet, and a count that a
    positive limit allows. *)
Definition within_limit (limit : option Z) (count : Z) : Prop :=
  ∀ l, limit = Some l → 0 < l → count < l.

Definition capped (limit : option Z) (count : Z) : Prop :=
  ∀ l, limit = Some l → 0 < l → count ≤ l.

(** The total that a cleanup of tags, branches or issues reports when its
    listing runs dry. *)
Definition reported_total (e : event) : option Z :=
  match e with
  | Print (MsgFinishedTags n) | Print (MsgFinishedBranches n)
  | Print (MsgFinishedIssues n) => Some n
  | _ => None
  end.

Definition totals (tr : list event) : list Z := omap reported_total tr.

(** * Properties *)

Section Monad.
Context {W : Type}.

Lemma bind_run {A B} (m : M W A) (f : A → M W B) (w : W) :
  (m ≫= f) w =
    match result (m w) with
    | Ok a => Run (result (f a (world (m w)))) (world (f a (world (m w))))
                (trace (m w) ++ trace (f a (world (m w))))
    | Raise e => Run (Raise e) (world (m w)) (trace (m w))
    | OutOfFuel => Run OutOfFuel (world (m w)) (trace (m w))
    end.
Proof. reflexivity. Qed.

Lemma for_in_cons {A S R} (x : A) (l : list A)
    (body : A → S → M W (loop_ctl S R)) (s : S) (w : W) :
  for_in (x :: l) body s w =
    match result (body x s w) with
    | Ok (Continue s') =>
        let r' := for_in l body s' (world (body x s w)) in
        Run (result r') (world r') (trace (body x s w) ++ trace r')
    | Ok (Break s') =>
        Run (Ok (inl s')) (world (body x s w)) (trace (body x s w))
    | Ok (Return r) =>
        Run (Ok (inr r)) (world (body x s w)) (trace (body x s w))
    | Raise e => Run (Raise e) (world (body x s w)) (trace (body x s w))
    | OutOfFuel => Run OutOfFuel (world (body x s w)) (trace (body x s w))
    end.
Proof.
  cbn [for_in]. rewrite bind_run.
  destruct (result (body x s w)) as [[s'|s'|r]| |]; cbn;
    rewrite ?app_nil_r; reflexivity.
Qed.

Lemma exchanges_app tr1 tr2 :
  exchanges (tr1 ++ tr2) = exchanges tr1 ++ exchanges tr2.
Proof. apply omap_app. Qed.

Lemma exchanges_attempt_events retries attempt req resp :
  exchanges (attempt_events retries attempt req resp) = [(req, resp)].
Proof.
  unfold attempt_events. cbn.
  destruct (status_code resp =? 403); [reflexivity|].
  destruct (success resp); reflexivity.
Qed.
Lemma trace_bind_prefix {A B} (m : M W A) (f : A → M W B) (w : W) :
  trace (m w) `prefix_of` trace ((m ≫= f) w).
Proof.
  rewrite bind_run. destruct (result (m w)); cbn; [|done..].
  by apply prefix_app_r.
Qed.

Lemma trace_while_true_prefix {S R} (fuel : nat)
    (body : S → M W (loop_ctl S R)) (s : S) (w : W) :
  trace (body s w) `prefix_of` trace (while_true (Datatypes.S fuel) body s w).
Proof. cbn [while_true]. apply trace_bind_prefix. Qed.
End Monad.

(** ** Decimal numerals *)






(** ** Invariants of traces *)

Section Emits.
Context {W : Type}.
Implicit Types P : event → Prop.

Lemma emits_only_ret {A} P (a : A) : emits_only P (mret a : M W A).
Proof. intros w. constructor. Qed.

Lemma emits_only_raise {A} P e : emits_only P (raise e : M W A).
Proof. intros w. constructor. Qed.

Lemma emits_only_out_of_fuel {A} P : emits_only P (out_of_fuel : M W A).
Proof. intros w. constructor. Qed.

Lemma emits_only_lift {A} P (x : exn + A) : emits_only P (lift x : M W A).
Proof. destruct x; [apply emits_only_raise|apply emits_only_ret]. Qed.

Lemma emits_only_emit P e : P e → emits_only P (emit e : M W unit).
Proof. intros He w. by repeat constructor. Qed.

Lemma emits_only_bind {A B} P (m : M W A) (f : A → M W B) :
  emits_only P m → (∀ a, emits_only P (f a)) → emits_only P (m ≫= f).
Proof.
  intros Hm Hf w. rewrite bind_run.
  destruct (result (m w)); cbn; [|apply Hm..].
  apply Forall_app. split; [apply Hm|apply Hf].
Qed.

Lemma emits_only_send (transport : W → request → response * W) P req :
  (∀ resp, P (Request req resp)) → emits_only P (send transport req).
Proof.
  intros H w. unfold send. destruct (transport w req). cbn.
  by repeat constructor.
Qed.

Lemma emits_only_for_in {A S R} P (l : list A)
    (body : A → S → M W (loop_ctl S R)) (s : S) :
  (∀ x s, emits_only P (body x s)) → emits_only P (for_in l body s).
Proof.
  intros Hbody. revert s. induction l as [|x l IH]; intros s.
  - apply emits_only_ret.
  - cbn [for_in]. apply emits_only_bind; [apply Hbody|].
    intros [s'|s'|r]; [apply IH|apply emits_only_ret..].
Qed.

Lemma emits_only_while_true {S R} P (fuel : nat)
    (body : S → M W (loop_ctl S R)) (s : S) :
  (∀ s, emits_only P (body s)) → emits_only P (while_true fuel body s).
Proof.
  intros Hbody. revert s. induction fuel as [|fuel IH]; intros s.
  - apply emits_only_out_of_fuel.
  - cbn [while_true]. apply emits_only_bind; [apply Hbody|].
    intros [s'|s'|r]; [apply IH|apply emits_only_ret..].
Qed.

Lemma emits_only_mono {A} P Q (m : M W A) :
  (∀ e, P e → Q e) → emits_only P m → emits_only Q m.
Proof. intros HPQ Hm w. eapply Forall_impl; [apply Hm|done]. Qed.

End Emits.

(** Unfolds the monad operations of a run and computes it as far as the
    data allows. *)
Ltac run_unfold :=
  unfold mbind, M_bind, mret, M_ret, bind, ret, lift, raise, out_of_fuel,
    print, sleep, emit;
  cbn.

(** One step of a proof that a computation emits only events in [P]:
    the rule for the head of the computation. *)
Ltac emits_step :=
  lazymatch goal with
  | |- emits_only _ (mbind _ _) => apply emits_only_bind; [|intros ?]
  | |- emits_only _ (mret _) => apply emits_only_ret
  | |- emits_only _ (ret _) => apply emits_only_ret
  | |- emits_only _ (lift _) => apply emits_only_lift
  | |- emits_only _ (raise _) => apply emits_only_raise
  | |- emits_only _ (print _) => apply emits_only_emit
  | |- emits_only _ (sleep _) => apply emits_only_emit
  | |- emits_only _ (for_in _ _ _) => apply emits_only_for_in; intros ? ?
  | |- emits_only _ (while_true _ _ _) => apply emits_only_while_true; intros ?
  | |- emits_only _ (if ?b then _ else _) => destruct b
  | |- emits_only _ (match ?x with _ => _ end) => destruct x
  end.

Section ExecutorEmits.
Context {W : Type}.
Variable transport : W → request → response * W.

(** The executor emits its one request, messages and delays. *)
Lemma emits_only_make_request (P : event → Prop) url method headers json
    retries :
  (∀ resp, P (Request (executor_request url method headers json) resp)) →
  (∀ m, P (Print m)) → (∀ n, P (Sleep n)) →
  emits_only P
    (make_request_with_retries transport url method headers json retries).
Proof.
  intros Hreq Hprint Hsleep. unfold make_request_with_retries.
  emits_step; [|repeat emits_step].
  emits_step. unfold make_request_attempt.
  emits_step; [|repeat emits_step; done].
  unfold requests_get, requests_delete, requests_patch.
  repeat case_bool_decide; subst;
    first [apply emits_only_send; apply Hreq | apply emits_only_raise].
Qed.
End ExecutorEmits.

(** ** The request executor *)

Section Executor.
Context {W : Type}.
Variable transport : W → request → response * W.

Lemma make_request_attempt_run url method headers json retries attempt last w :
  supported method →
  make_request_attempt transport url method headers json retries attempt last w
  = let req := executor_request url method headers json in
    let resp := (transport w req).1 in
    Run (Ok (if status_code resp =? 403 then Continue (Some resp)
             else if success resp then Return resp
             else Continue (Some resp)))
        (transport w req).2 (attempt_events retries attempt req resp).
Proof.
  intros Hm.
  unfold make_request_attempt, attempt_events, success.
  rewrite bind_run.
  assert ((if bool_decide (method = "GET") then
             requests_get transport url headers None json
           else if bool_decide (method = "DELETE") then
             requests_delete transport url headers json
           else if bool_decide (method = "PATCH") then
             requests_patch transport url headers json
           else raise (ValueError ("Unsupported HTTP method: " +:+ method)))
          = send transport (executor_request url method headers json))
    as ->.
  { destruct Hm as [-> | [-> | ->]];
      repeat case_bool_decide; done. }
  unfold send. destruct (transport w _) as [resp w']; cbn.
  destruct (status_code resp =? 403); [reflexivity|].
  destruct (status_code resp =? 200), (status_code resp =? 204);
    reflexivity.
Qed.

Section Call.
Variables (url method : string) (headers : gmap string string)
  (json : option (gmap string pyval)) (retries : Z).
Hypothesis Hmethod : supported method.

Let req := executor_request url method headers json.
Let attempt := make_request_attempt transport url method headers json retries.

Lemma attempts_spec (l : list Z) (last0 : option response) (w : W) :
  let r := for_in l attempt last0 w in
  Forall (λ x, x.1 = req) (exchanges (trace r)) ∧
  match result r with
  | Ok (inr resp) =>
      success resp = true ∧
      last (exchanges (trace r)) = Some (req, resp) ∧
      (length (exchanges (trace r)) ≤ length l)%nat
  | Ok (inl st) =>
      st = from_option (λ x, Some x.2) last0 (last (exchanges (trace r))) ∧
      length (exchanges (trace r)) = length l ∧
      Forall (λ x, success x.2 = false) (exchanges (trace r))
  | _ => False
  end.
Proof.
  revert last0 w. induction l as [|a l IH]; intros last0 w.
  { cbn. split; [constructor|]. split; [done|]. split; [done|constructor]. }
  cbn zeta. rewrite for_in_cons. subst attempt.
  rewrite make_request_attempt_run by done. cbn zeta. fold req.
  destruct (transport w req) as [resp w'] eqn:E.
  cbn [fst snd result world trace].
  assert (Hsucc : (status_code resp =? 403) = true → success resp = false).
  { unfold success. intros H. apply Z.eqb_eq in H. rewrite H. reflexivity. }
  destruct (status_code resp =? 403) eqn:E403;
    [|destruct (success resp) eqn:Es].
  - specialize (IH (Some resp) w'). cbn zeta in IH.
    destruct IH as [IH1 IH2]. cbn [result trace].
    rewrite exchanges_app, exchanges_attempt_events.
    split; [constructor; done|].
    destruct (result (for_in l _ (Some resp) w')) as [[st|r]| |]; try done.
    + destruct IH2 as (-> & Hlen & Hall). cbn [app].
      split; [|split; [cbn; lia|constructor; auto]].
      destruct (exchanges (trace _)) as [|x xs]; [done|].
      rewrite last_cons_cons.
      destruct (proj2 (last_is_Some (x :: xs))) as [y ->]; done.
    + destruct IH2 as (Hs & Hlast & Hlen). split; [done|].
      split; [|cbn; lia]. cbn [app].
      destruct (exchanges (trace _)) as [|x xs]; [done|].
      rewrite last_cons_cons. done.
  - cbn [result trace]. rewrite exchanges_attempt_events.
    split; [constructor; done|]. split; [done|]. split; [done|cbn; lia].
  - specialize (IH (Some resp) w'). cbn zeta in IH.
    destruct IH as [IH1 IH2]. cbn [result trace].
    rewrite exchanges_app, exchanges_attempt_events.
    split; [constructor; done|].
    destruct (result (for_in l _ (Some resp) w')) as [[st|r]| |]; try done.
    + destruct IH2 as (-> & Hlen & Hall). cbn [app].
      split; [|split; [cbn; lia|constructor; auto]].
      destruct (exchanges (trace _)) as [|x xs]; [done|].
      rewrite last_cons_cons.
      destruct (proj2 (last_is_Some (x :: xs))) as [y ->]; done.
    + destruct IH2 as (Hs & Hlast & Hlen). split; [done|].
      split; [|cbn; lia]. cbn [app].
      destruct (exchanges (trace _)) as [|x xs]; [done|].
      rewrite last_cons_cons. done.
Qed.

Lemma make_request_with_retries_run (w : W) :
  let r := for_in (seqZ 0 retries) attempt None w in
  make_request_with_retries transport url method headers json retries w
  = match result r with
    | Ok (inr resp) | Ok (inl (Some resp)) =>
        Run (Ok resp) (world r) (trace r)
    | Ok (inl None) => Run (Raise UnboundLocalError) (world r) (trace r)
    | Raise e => Run (Raise e) (world r) (trace r)
    | OutOfFuel => Run OutOfFuel (world r) (trace r)
    end.
Proof.
  cbn zeta. unfold make_request_with_retries. rewrite bind_run.
  fold attempt.
  destruct (result (for_in _ attempt None w)) as [[[?|]|?]| |];
    cbn; rewrite ?app_nil_r; reflexivity.
Qed.

(** The executor always sends the same request, at most [retries]
    times, and never raises while the budget is positive. *)
Lemma make_request_with_retries_spec (w : W) :
  let r :=
    make_request_with_retries transport url method headers json retries w
  in
  Forall (λ x, x.1 = req) (exchanges (trace r)) ∧
  (length (exchanges (trace r)) ≤ Z.to_nat retries)%nat ∧
  (0 < retries →
   ∃ resp, result r = Ok resp ∧
     last (exchanges (trace r)) = Some (req, resp) ∧
     (success resp = false →
      length (exchanges (trace r)) = Z.to_nat retries ∧
      Forall (λ x, success x.2 = false) (exchanges (trace r)))).
Proof.
  cbn zeta. rewrite make_request_with_retries_run. cbn zeta.
  pose proof (attempts_spec (seqZ 0 retries) None w) as [Hreq Hres].
  cbn zeta in Hreq, Hres. rewrite length_seqZ in Hres.
  destruct (result (for_in _ attempt None w)) as [[st|resp]| |];
    try done.
  - destruct Hres as (Hst & Hlen & Hall).
    destruct st as [resp|]; cbn [result trace].
    + split; [done|]. split; [lia|]. intros _. exists resp.
      split; [done|]. split; [|done].
      destruct (last (exchanges _)) as [[rq rs]|] eqn:El; [|done].
      cbn in Hst. injection Hst as ->.
      apply last_Some in El as [l' El]. rewrite El in Hreq.
      apply Forall_app in Hreq as [_ Hreq].
      apply Forall_inv in Hreq. cbn in Hreq. congruence.
    + split; [done|]. split; [lia|]. intros Hpos.
      destruct (exchanges _) as [|x xs] eqn:Ex; [cbn in Hlen; lia|].
      destruct (proj2 (last_is_Some (x :: xs))) as [y Hy]; [done|].
      rewrite Hy in Hst. done.
  - destruct Hres as (Hs & Hlast & Hlen). cbn [result trace].
    split; [done|]. split; [done|]. intros _. exists resp.
    split; [done|]. split; [done|]. congruence.
Qed.

(** With a positive budget the first event is the request. *)
Lemma make_request_with_retries_first (w : W) :
  0 < retries →
  ∃ tr,
    trace (make_request_with_retries transport url method headers json
             retries w)
    = Request req (transport w req).1 :: tr.
Proof.
  intros Hpos. rewrite make_request_with_retries_run. cbn zeta.
  unfold seqZ. destruct (Z.to_nat retries) as [|k] eqn:Ek; [lia|].
  cbn [seq fmap list_fmap]. rewrite for_in_cons. subst attempt.
  rewrite make_request_attempt_run by done. cbn zeta. fold req.
  cbn [result world trace]. unfold attempt_events.
  destruct (status_code (transport w req).1 =? 403); cbn [result world trace].
  - destruct (result (for_in _ _ _ _)) as [[[?|]|?]| |]; by eexists.
  - destruct (success (transport w req).1); cbn [result world trace].
    + by eexists.
    + destruct (result (for_in _ _ _ _)) as [[[?|]|?]| |]; by eexists.
Qed.
End Call.


(** C3 (amended): a 403 response triggers a message, a cooldown of 60 and
    a retry of the same request, and this retry takes one attempt of the
    budget like any other failure: the executor sends at most [retries]
    requests, and when every response was a 403 it returns the last of
    them after exactly [retries] requests. *)
Theorem C3_rate_limit_retry_takes_an_attempt (url method : string)
    (headers : gmap string string) (json : option (gmap string pyval))
    (retries : Z) (w : W) :
  supported method →
  let req := executor_request url method headers json in
  let attempt :=
    make_request_attempt transport url method headers json retries in
  let r :=
    make_request_with_retries transport url method headers json retries w in
  (∀ (n : Z) (rest : list Z) (last0 : option response) (w0 : W),
     let resp := (transport w0 req).1 in
     status_code resp = 403 →
     let r' := for_in rest attempt (Some resp) (transport w0 req).2 in
     for_in (n :: rest) attempt last0 w0
     = Run (result r') (world r')
         ([Request req resp; Print MsgRateLimit; Sleep 60] ++ trace r')) ∧
  Forall (λ x, x.1 = req) (exchanges (trace r)) ∧
  (length (exchanges (trace r)) ≤ Z.to_nat retries)%nat ∧
  (0 < retries →
   Forall (λ x, status_code x.2 = 403) (exchanges (trace r)) →
   ∃ resp, result r = Ok resp ∧ status_code resp = 403 ∧
     length (exchanges (trace r)) = Z.to_nat retries).
Proof.
  intros Hm req attempt r.
  destruct (make_request_with_retries_spec url method headers json
              retries Hm w) as (Hreq & Hlen & Hres).
  split; [|split; [done|split; [done|]]].
  - intros n rest last0 w0 resp H403 r'. rewrite for_in_cons.
    subst attempt. rewrite make_request_attempt_run by done.
    cbn zeta. fold req. fold resp. cbn [result world trace].
    unfold attempt_events. rewrite H403. reflexivity.
  - intros Hpos Hall. destruct (Hres Hpos) as (resp & Hr & Hl & Hf).
    exists resp. split; [done|].
    apply last_Some in Hl as [l' Hl]. fold r in Hl.
    rewrite Hl in Hall. apply Forall_app in Hall as [_ Hall].
    apply Forall_inv in Hall. cbn in Hall. split; [done|].
    apply Hf. unfold success. rewrite Hall. reflexivity.
Qed.
End Executor.


Lemma C3_rate_limit_retry_takes_an_attempt_witness :
  supported "DELETE" ∧
  let r := make_request_with_retries (constantly rate_limited)
             "https://api.github.com/repos/o/r/git/refs/heads/dev" "DELETE"
             ∅ None MAX_RETRIES () in
  (length (exchanges (trace r)) ≤ Z.to_nat MAX_RETRIES)%nat.
Proof.
  assert (Hm : supported "DELETE") by (right; left; reflexivity).
  split; [exact Hm|].
  exact (proj1 (proj2 (proj2
    (C3_rate_limit_retry_takes_an_attempt (constantly rate_limited)
       "https://api.github.com/repos/o/r/git/refs/heads/dev" "DELETE"
       ∅ None MAX_RETRIES () Hm)))).
Defined.

(** C3, as stated, fails: against a server that answers every request with
    403, the executor with the default budget gives up after three requests
    and returns the 403 response; the rate-limit responses alone have
    exhausted the budget. *)
Lemma C3_counterexample_rate_limit_exhausts_budget :
  let req :=
    get_request "https://api.github.com/repos/o/r/branches" ∅ None None in
  make_request_with_retries (constantly rate_limited)
    "https://api.github.com/repos/o/r/branches" "GET" ∅ None MAX_RETRIES ()
  = Run (Ok rate_limited) ()
      [Request req rate_limited; Print MsgRateLimit; Sleep 60;
       Request req rate_limited; Print MsgRateLimit; Sleep 60;
       Request req rate_limited; Print MsgRateLimit; Sleep 60].
Proof. vm_compute. reflexivity. Qed.

(** ** The cutoff calculator *)





















(** The model of the calendar on the dates of the documentation: a month
    before 31 March 2024 is 29 February, thirty days before is 1 March,
    and thirteen hours before 12:00:05 is 23:00:05 of the day before. *)
Lemma calculate_cutoff_date_examples :
  calculate_cutoff_date example_now (Some "1m")
  = inr {| year := 2024; month := 2; day := 29;
           hour := 12; minute := 0; second := 5; microsecond := 17 |} ∧
  calculate_cutoff_date example_now (Some "30d")
  = inr {| year := 2024; month := 3; day := 1;
           hour := 12; minute := 0; second := 5; microsecond := 17 |} ∧
  calculate_cutoff_date example_now (Some "13h")
  = inr {| year := 2024; month := 3; day := 30;
           hour := 23; minute := 0; second := 5; microsecond := 17 |} ∧
  calculate_cutoff_date example_now (Some "-1d")
  = inr {| year := 2024; month := 4; day := 1;
           hour := 12; minute := 0; second := 5; microsecond := 17 |}.
Proof. vm_compute. done. Qed.

(** ** Branch cleanup and issue closing *)

Section Cleanup.
Context {W : Type}.
Variable transport : W → request → response * W.




(** C5: the listing requests of issue closing carry no parameters at all.
    Every request [close_issues] sends is without query parameters, and
    every GET among them goes to the bare issues URL without a payload:
    neither [state=open] nor [per_page] nor [page] reaches the server.
    The first event of a run with fuel is such a listing request. *)
Theorem C5_issue_listing_carries_no_parameters (fuel : nat)
    (org repo token : string) (limit : option Z) (w : W) :
  Forall (bare_listing org repo)
    (trace (close_issues transport fuel org repo token limit w)) ∧
  ∃ resp tr,
    trace (close_issues transport (S fuel) org repo token limit w)
    = Request {| req_method := "GET"; req_url := issues_url org repo;
                 req_headers := auth_headers token;
                 req_params := None; req_json := None |} resp :: tr.
Proof.
  split.
  - revert w. change (emits_only (bare_listing org repo)
      (close_issues transport fuel org repo token limit)).
    unfold close_issues. cbv zeta.
    emits_step; [|repeat emits_step; done].
    emits_step. unfold close_issues_page. destruct s as [params count].
    emits_step.
    { apply emits_only_make_request; [|done..]. intros resp. by split. }
    emits_step; [repeat emits_step; done|].
    emits_step; [repeat emits_step|].
    emits_step; [|repeat emits_step].
    emits_step. unfold close_issues_item.
    emits_step; [emits_step|].
    emits_step.
    { apply emits_only_make_request; [|done..]. intros resp. by split. }
    repeat emits_step; done.
  - destruct (make_request_with_retries_first transport (issues_url org repo)
                "GET" (auth_headers token) None MAX_RETRIES
                ltac:(by left) w ltac:(done)) as [tr Htr].
    unfold close_issues. cbv zeta.
    match goal with
    | |- context [trace ((?m ≫= ?f) w)] =>
        pose proof (trace_bind_prefix m f w) as [tr1 ->];
        pose proof (trace_while_true_prefix fuel
          (close_issues_page transport (issues_url org repo)
             (auth_headers token) limit)
          ({[ "state" := PStr "open"; "per_page" := PInt 50;
              "page" := PInt 1 ]}, 0) w) as [tr2 ->]
    end.
    unfold close_issues_page at 1.
    match goal with
    | |- context [trace ((?m ≫= ?f) w)] =>
        pose proof (trace_bind_prefix m f w) as [tr3 ->]
    end.
    rewrite Htr. by eexists _, _.
Qed.

End Cleanup.

(** Branch cleanup on a listing of "main", "dev" and "master" with a limit
    of 5: the one delete request is for "dev". *)
Lemma delete_branches_example :
  let branch (name : string) : gmap string pyval :=
    {[ "name" := PStr name ]} in
  let r := delete_branches replay 3 "o" "r" "t" (Some 5)
             [listing (branch <$> ["main"; "dev"; "master"]); no_content;
              listing []] in
  result r = Ok () ∧
  (λ x, (req_method x.1, req_url x.1)) <$> exchanges (trace r)
  = [("GET", "https://api.github.com/repos/o/r/branches");
     ("DELETE", "https://api.github.com/repos/o/r/git/refs/heads/dev");
     ("GET", "https://api.github.com/repos/o/r/branches")].
Proof. vm_compute. done. Qed.


(** ** Paging *)

Section Paging.
Context {W : Type}.
Variable transport : W → request → response * W.
Variable strptime : string → option datetime.

(** One turn of [while True]: the loop goes on exactly when the body ends
    with [Continue]. *)
Lemma while_true_S {S R} (fuel : nat) (body : S → M W (loop_ctl S R))
    (s : S) (w : W) :
  while_true (Datatypes.S fuel) body s w =
    match result (body s w) with
    | Ok (Continue s') =>
        let r' := while_true fuel body s' (world (body s w)) in
        Run (result r') (world r') (trace (body s w) ++ trace r')
    | Ok (Break s') =>
        Run (Ok (inl s')) (world (body s w)) (trace (body s w))
    | Ok (Return r) =>
        Run (Ok (inr r)) (world (body s w)) (trace (body s w))
    | Raise e => Run (Raise e) (world (body s w)) (trace (body s w))
    | OutOfFuel => Run OutOfFuel (world (body s w)) (trace (body s w))
    end.
Proof.
  cbn [while_true]. rewrite bind_run.
  destruct (result (body s w)) as [[s'|s'|r]| |]; cbn;
    rewrite ?app_nil_r; reflexivity.
Qed.

Lemma dict_incr_page (params : gmap string pyval) (p : Z) :
  params !! "page" = Some (PInt p) →
  dict_incr params "page" = inr (<["page" := PInt (p + 1)]> params).
Proof. unfold dict_incr. by intros ->. Qed.

(** The three loops that list through the executor share their shape; this
    tactic proves when such a page body ends with [Continue]. *)
Ltac page_continues Hpage :=
  let Hstatus := fresh "Hstatus" in
  let Hjson := fresh "Hjson" in
  let Hitems := fresh "Hitems" in
  let Hitems' := fresh "Hitems'" in
  rewrite bind_run;
  match goal with
  | |- context [result (make_request_with_retries ?t ?u ?m ?h ?j ?n ?w)] =>
      destruct (result (make_request_with_retries t u m h j n w))
        as [?response| |];
      [|split; [done|by intros (? & ? & _)]..]
  end;
  cbn [result world trace];
  match goal with
  | |- context [status_code ?r =? 200] =>
      destruct (Z.eqb_spec (status_code r) 200) as [Hstatus|Hstatus];
      cbn [negb]
  end;
  [|split; [done|intros (? & [= <-] & ? & _); done]];
  case_bool_decide as Hjson;
  [split; [done|intros (? & [= <-] & _ & ? & _); done]|];
  rewrite bind_run;
  match goal with
  | |- context [result (for_in ?l ?b ?c ?w)] =>
      destruct (result (for_in l b c w)) as [[?count'|[]]| |]
        eqn:Hitems;
      cbn [result world trace]
  end;
  rewrite ?(dict_incr_page _ _ Hpage); run_unfold;
  (split;
   [intros Heq;
    first [done
          |simplify_eq; eexists; split; [done|]; split; [done|];
           split; [done|]; eexists; split; [exact Hitems|done]]
   |intros (? & Hl & _ & _ & ? & Hitems' & ->); simplify_eq;
    rewrite Hitems in Hitems'; by simplify_eq]).

Lemma delete_tags_page_continues org repo headers limit params p count w st' :
  params !! "page" = Some (PInt p) →
  let listing :=
    make_request_with_retries transport (tags_url org repo) "GET" headers
      (Some params) MAX_RETRIES w in
  result (delete_tags_page transport org repo headers limit (params, count) w)
  = Ok (Continue st') ↔
  ∃ response, result listing = Ok response ∧
    status_code response = 200 ∧ json response ≠ [] ∧
    ∃ count',
      result (for_in (json response)
                (delete_tags_item transport org repo headers limit) count
                (world listing)) = Ok (inl count') ∧
      st' = (<["page" := PInt (p + 1)]> params, count').
Proof.
  intros Hpage listing. subst listing. unfold delete_tags_page.
  page_continues Hpage.
Qed.

Lemma delete_branches_page_continues org repo headers limit params p count w
    st' :
  params !! "page" = Some (PInt p) →
  let listing :=
    make_request_with_retries transport (branches_url org repo) "GET" headers
      (Some params) MAX_RETRIES w in
  result (delete_branches_page transport org repo headers limit
            (params, count) w)
  = Ok (Continue st') ↔
  ∃ response, result listing = Ok response ∧
    status_code response = 200 ∧ json response ≠ [] ∧
    ∃ count',
      result (for_in (json response)
                (delete_branches_item transport org repo headers limit) count
                (world listing)) = Ok (inl count') ∧
      st' = (<["page" := PInt (p + 1)]> params, count').
Proof.
  intros Hpage listing. subst listing. unfold delete_branches_page.
  page_continues Hpage.
Qed.

Lemma close_issues_page_continues url headers limit params p count w st' :
  params !! "page" = Some (PInt p) →
  let listing :=
    make_request_with_retries transport url "GET" headers None MAX_RETRIES w
  in
  result (close_issues_page transport url headers limit (params, count) w)
  = Ok (Continue st') ↔
  ∃ response, result listing = Ok response ∧
    status_code response = 200 ∧ json response ≠ [] ∧
    ∃ count',
      result (for_in (json response)
                (close_issues_item transport url headers limit) count
                (world listing)) = Ok (inl count') ∧
      st' = (<["page" := PInt (p + 1)]> params, count').
Proof.
  intros Hpage listing. subst listing. unfold close_issues_page.
  page_continues Hpage.
Qed.

Lemma delete_releases_page_continues url headers limit cutoff_date params p
    count w st' :
  params !! "page" = Some (PInt p) →
  params !! "per_page" = Some (PInt 50) →
  let req := get_request url headers (Some params) None in
  let response := (transport w req).1 in
  result (delete_releases_page transport strptime url headers limit
            cutoff_date (params, count) w)
  = Ok (Continue st') ↔
  status_code response = 200 ∧ json response ≠ [] ∧
  50 ≤ Z.of_nat (length (json response)) ∧
  ∃ count',
    result (for_in (json response)
              (delete_releases_item transport strptime url headers limit
                 cutoff_date) count (transport w req).2) = Ok (inl count') ∧
    st' = (<["page" := PInt (p + 1)]> params, count').
Proof.
  intros Hpage Hper req response. subst response.
  unfold delete_releases_page, dict_item. rewrite Hpage, Hper.
  run_unfold. unfold requests_get, send. fold req.
  destruct (transport w req) as [response w']. cbn.
  destruct (Z.eqb_spec (status_code response) 200) as [Hstatus|Hstatus];
    cbn; [|split; [done|by intros (? & _)]].
  case_bool_decide as Hjson; cbn; [split; [done|by intros (_ & ? & _)]|].
  destruct (result (for_in _ _ count w')) as [[count'|[]]| |] eqn:Hitems;
    cbn; [|split; [done|by intros (_ & _ & _ & ? & ? & _)]..].
  destruct (Z.ltb_spec (Z.of_nat (length (json response))) 50) as [Hlt|Hge];
    cbn.
  - split; [done|]. intros (_ & _ & ? & _). lia.
  - rewrite (dict_incr_page _ _ Hpage). cbn. split.
    + intros [= <-]. split; [done|]. split; [done|]. split; [done|].
      by exists count'.
    + intros (_ & _ & _ & ? & [= <-] & ->). done.
Qed.

(** C4 (amended): when the listing loops go on.  The release loop fetches a
    further page exactly when the listing returned status 200 and a page of
    at least 50 items whose processing neither returned nor raised.  The
    tag, branch and issue loops fetch a further page exactly when the
    listing ended with status 200 and a non-empty page whose processing
    neither returned nor raised; the length of the page plays no part.  In
    each case the loop goes on with ["page"] advanced by one. *)
Theorem C4_listing_goes_on (org repo : string)
    (headers : gmap string string) (limit : option Z) (cutoff_date : datetime)
    (params : gmap string pyval) (p count : Z) (w : W) :
  params !! "page" = Some (PInt p) →
  params !! "per_page" = Some (PInt 50) →
  (∀ st',
     let req := get_request (releases_url org repo) headers (Some params) None in
     let response := (transport w req).1 in
     result (delete_releases_page transport strptime (releases_url org repo)
               headers limit cutoff_date (params, count) w)
     = Ok (Continue st') ↔
     status_code response = 200 ∧ json response ≠ [] ∧
     50 ≤ Z.of_nat (length (json response)) ∧
     ∃ count',
       result (for_in (json response)
                 (delete_releases_item transport strptime
                    (releases_url org repo) headers limit cutoff_date)
                 count (transport w req).2) = Ok (inl count') ∧
       st' = (<["page" := PInt (p + 1)]> params, count')) ∧
  (∀ st',
     let listing :=
       make_request_with_retries transport (tags_url org repo) "GET" headers
         (Some params) MAX_RETRIES w in
     result (delete_tags_page transport org repo headers limit
               (params, count) w)
     = Ok (Continue st') ↔
     ∃ response, result listing = Ok response ∧
       status_code response = 200 ∧ json response ≠ [] ∧
       ∃ count',
         result (for_in (json response)
                   (delete_tags_item transport org repo headers limit) count
                   (world listing)) = Ok (inl count') ∧
         st' = (<["page" := PInt (p + 1)]> params, count')) ∧
  (∀ st',
     let listing :=
       make_request_with_retries transport (branches_url org repo) "GET"
         headers (Some params) MAX_RETRIES w in
     result (delete_branches_page transport org repo headers limit
               (params, count) w)
     = Ok (Continue st') ↔
     ∃ response, result listing = Ok response ∧
       status_code response = 200 ∧ json response ≠ [] ∧
       ∃ count',
         result (for_in (json response)
                   (delete_branches_item transport org repo headers limit)
                   count (world listing)) = Ok (inl count') ∧
         st' = (<["page" := PInt (p + 1)]> params, count')) ∧
  (∀ st',
     let listing :=
       make_request_with_retries transport (issues_url org repo) "GET"
         headers None MAX_RETRIES w in
     result (close_issues_page transport (issues_url org repo) headers limit
               (params, count) w)
     = Ok (Continue st') ↔
     ∃ response, result listing = Ok response ∧
       status_code response = 200 ∧ json response ≠ [] ∧
       ∃ count',
         result (for_in (json response)
                   (close_issues_item transport (issues_url org repo) headers
                      limit) count (world listing)) = Ok (inl count') ∧
         st' = (<["page" := PInt (p + 1)]> params, count')).
Proof.
  intros Hpage Hper. split; [|split; [|split]]; intros st'.
  - by apply delete_releases_page_continues.
  - by apply delete_tags_page_continues.
  - by apply delete_branches_page_continues.
  - by apply close_issues_page_continues.
Qed.
End Paging.

Lemma C4_listing_goes_on_witness :
  first_page !! "page" = Some (PInt 1) ∧
  first_page !! "per_page" = Some (PInt 50) ∧
  result (delete_tags_page replay "o" "r" ∅ None (first_page, 0)
            [listing [tag_v1]; no_content])
  = Ok (Continue (<["page" := PInt (1 + 1)]> first_page, 1)).
Proof.
  assert (H1 : first_page !! "page" = Some (PInt 1)) by reflexivity.
  assert (H2 : first_page !! "per_page" = Some (PInt 50)) by reflexivity.
  split; [exact H1|]. split; [exact H2|].
  apply (proj1 (proj2 (C4_listing_goes_on replay (λ _, None) "o" "r" ∅ None
           (Build_datetime 1 1 1 0 0 0 0) first_page 1 0
           [listing [tag_v1]; no_content] H1 H2))).
  exists (listing [tag_v1]). split; [reflexivity|]. split; [reflexivity|].
  split; [discriminate|]. exists 1. split; reflexivity.
Defined.

(** C4, as stated, fails for tags: a page of one tag, fewer than 50, does
    not stop the listing; after deleting the tag the loop asks for page 2,
    and stops only at the empty page. *)
Lemma C4_counterexample_short_page_does_not_stop :
  let r := delete_tags replay 3 "o" "r" "t" None
             [listing [tag_v1]; no_content; listing []] in
  result r = Ok () ∧
  (λ x, (req_method x.1, req_json x.1 ≫= (.!! "page"), length (json x.2)))
    <$> exchanges (trace r)
  = [("GET", Some (PInt 1), 1%nat); ("DELETE", None, 0%nat);
     ("GET", Some (PInt 2), 0%nat)].
Proof. vm_compute. done. Qed.

(** ** Release cleanup *)

Section Releases.
Context {W : Type}.
Variable transport : W → request → response * W.
Variable strptime : string → option datetime.

Section Item.
Variables (url : string) (headers : gmap string string) (limit : option Z)
  (cutoff_date : datetime).

Let item :=
  delete_releases_item transport strptime url headers limit cutoff_date.


(** A release at or after the cutoff is skipped: a message, no request. *)
Lemma delete_releases_item_skip release release_date deleted_count w :
  created_at_of strptime release = Some release_date →
  Calendar.datetime_ltb release_date cutoff_date = false →
  item release deleted_count w
  = Run (Ok (Continue deleted_count)) w
      [Print (MsgSkippingRelease (release_name_of release) release_date
                cutoff_date)].
Proof.
  unfold created_at_of, item, delete_releases_item, dict_item.
  intros H Hlt.
  destruct (release !! "created_at") as [[|n|s]|]; try done.
  run_unfold. rewrite H. cbn. rewrite Hlt. reflexivity.
Qed.


(** A release before the cutoff is deleted by one direct request. *)
Lemma delete_releases_item_delete release release_date deleted_count w :
  created_at_of strptime release = Some release_date →
  Calendar.datetime_ltb release_date cutoff_date = true →
  is_Some (release !! "id") →
  let req := delete_request (release_delete_url url release) headers None in
  let resp := (transport w req).1 in
  item release deleted_count w
  = if status_code resp =? 204 then
      if limit_reached limit (deleted_count + 1) then
        Run (Ok (Return ())) (transport w req).2
          [Request req resp;
           Print (MsgDeletedRelease (release_name_of release) release_date);
           Print (MsgReleaseLimit limit)]
      else
        Run (Ok (Continue (deleted_count + 1))) (transport w req).2
          [Request req resp;
           Print (MsgDeletedRelease (release_name_of release) release_date)]
    else
      Run (Ok (Continue deleted_count)) (transport w req).2
        [Request req resp;
         Print (MsgDeleteReleaseFailed (release_name_of release)
                  (status_code resp))].
Proof.
  unfold created_at_of, item, delete_releases_item, dict_item,
    release_delete_url, dict_get.
  intros H Hlt [release_id Hid].
  destruct (release !! "created_at") as [[|n|s]|]; try done.
  run_unfold. rewrite H. cbn. rewrite Hlt, Hid. cbn.
  unfold requests_delete, send.
  destruct (transport w _) as [resp w']. cbn.
  destruct (status_code resp =? 204); [|reflexivity]. cbn.
  destruct (limit_reached limit (deleted_count + 1)); reflexivity.
Qed.

End Item.





Section Loop.
Variables (url : string) (headers : gmap string string) (limit : option Z)
  (cutoff_date : datetime).

Let item :=
  delete_releases_item transport strptime url headers limit cutoff_date.


Let page :=
  delete_releases_page transport strptime url headers limit cutoff_date.

(** The run of one page, case by case. *)
Lemma delete_releases_page_run (params : gmap string pyval) (p n : Z)
    (deleted_count : Z) (w : W) :
  params !! "page" = Some (PInt p) →
  params !! "per_page" = Some (PInt n) →
  let req := get_request url headers (Some params) None in
  let response := (transport w req).1 in
  let fetch := [Print (MsgFetchingReleases (PInt p)); Request req response] in
  let loop := for_in (json response) item deleted_count (transport w req).2 in
  page (params, deleted_count) w
  = if negb (status_code response =? 200) then
      Run (Ok (Break (params, deleted_count))) (transport w req).2
        (fetch ++ [Print (MsgFetchReleasesFailed (status_code response)
                            (text response))])
    else if bool_decide (json response = []) then
      Run (Ok (Break (params, deleted_count))) (transport w req).2
        (fetch ++ [Print MsgNoMoreReleases])
    else
      match result loop with
      | Ok (inl count) =>
          if Z.of_nat (length (json response)) <? n then
            Run (Ok (Break (params, count))) (world loop)
              (fetch ++ trace loop ++ [Print MsgNoMorePages])
          else
            Run (Ok (Continue (<["page" := PInt (p + 1)]> params, count)))
              (world loop) (fetch ++ trace loop)
      | Ok (inr r) => Run (Ok (Return r)) (world loop) (fetch ++ trace loop)
      | Raise e => Run (Raise e) (world loop) (fetch ++ trace loop)
      | OutOfFuel => Run OutOfFuel (world loop) (fetch ++ trace loop)
      end.
Proof.
  intros Hp Hn req response fetch loop. subst page item fetch loop response.
  unfold delete_releases_page, dict_item. rewrite Hp, Hn.
  run_unfold. unfold requests_get, send. fold req.
  destruct (transport w req) as [response w']. cbn.
  destruct (status_code response =? 200); cbn; [|done].
  case_bool_decide; cbn; [done|].
  destruct (result (for_in _ _ deleted_count w')) as [[count|[]]| |]; cbn;
    rewrite ?app_nil_r; try done.
  destruct (Z.of_nat (length (json response)) <? n); cbn; [done|].
  rewrite (dict_incr_page _ _ Hp). cbn. by rewrite app_nil_r.
Qed.






End Loop.

Lemma delete_releases_run (fuel : nat) (now : datetime)
    (org repo token : string) (limit : option Z)
    (time_frame_gt : option string) (cutoff_date : datetime) (w : W) :
  calculate_cutoff_date now time_frame_gt = inr cutoff_date →
  let loop :=
    while_true fuel
      (delete_releases_page transport strptime (releases_url org repo)
         (auth_headers token) limit cutoff_date)
      (first_page, 0) w in
  delete_releases transport strptime fuel now org repo token limit
    time_frame_gt w
  = match result loop with
    | Ok (inl (_, deleted_count)) =>
        Run (Ok ()) (world loop)
          (Print (MsgDeletingBefore cutoff_date)
           :: trace loop ++ [Print (MsgTotalDeleted deleted_count)])
    | Ok (inr _) =>
        Run (Ok ()) (world loop)
          (Print (MsgDeletingBefore cutoff_date) :: trace loop)
    | Raise e =>
        Run (Raise e) (world loop)
          (Print (MsgDeletingBefore cutoff_date) :: trace loop)
    | OutOfFuel =>
        Run OutOfFuel (world loop)
          (Print (MsgDeletingBefore cutoff_date) :: trace loop)
    end.
Proof.
  intros Hcut loop. subst loop. unfold delete_releases. rewrite Hcut.
  cbv zeta. fold first_page. run_unfold.
  destruct (result (while_true fuel _ (first_page, 0) w))
    as [[[params count]|[]]| |]; cbn; rewrite ?app_nil_r; done.
Qed.


(** C10: in release cleanup a delete is one direct transport call.  A
    release before the cutoff whose delete is answered by any status other
    than 204 (a 403 included) costs exactly one request, is reported as
    failed at once, and the loop goes on with the counter unchanged; and no
    run of release cleanup ever sleeps or prints a message of the retry
    loop. *)
Theorem C10_release_delete_bypasses_executor :
  (∀ (url : string) (headers : gmap string string) (limit : option Z)
     (cutoff_date release_date : datetime) (release : gmap string pyval)
     (deleted_count : Z) (w : W),
     created_at_of strptime release = Some release_date →
     Calendar.datetime_ltb release_date cutoff_date = true →
     is_Some (release !! "id") →
     let req := delete_request (release_delete_url url release) headers None in
     let resp := (transport w req).1 in
     status_code resp ≠ 204 →
     delete_releases_item transport strptime url headers limit cutoff_date
       release deleted_count w
     = Run (Ok (Continue deleted_count)) (transport w req).2
         [Request req resp;
          Print (MsgDeleteReleaseFailed (release_name_of release)
                   (status_code resp))]) ∧
  (∀ (fuel : nat) (now : datetime) (org repo token : string)
     (limit : option Z) (time_frame_gt : option string) (w : W),
     Forall no_retry_event
       (trace (delete_releases transport strptime fuel now org repo token
                 limit time_frame_gt w))).
Proof.
  split.
  - intros url headers limit cutoff_date release_date release deleted_count w
      Hc Hlt Hid req resp Hs.
    rewrite (delete_releases_item_delete _ _ _ _ _ release_date) by done.
    fold req. fold resp. apply Z.eqb_neq in Hs. by rewrite Hs.
  - intros fuel now org repo token limit time_frame_gt.
    change (emits_only no_retry_event
      (delete_releases transport strptime fuel now org repo token limit
         time_frame_gt)).
    unfold delete_releases. cbv zeta.
    emits_step; [emits_step|]. emits_step; [by emits_step|].
    emits_step; [|repeat emits_step; done].
    emits_step. unfold delete_releases_page. destruct s as [params count].
    emits_step; [emits_step|]. emits_step; [by emits_step|].
    emits_step; [by apply emits_only_send|].
    emits_step; [repeat emits_step; done|].
    emits_step; [repeat emits_step; done|].
    emits_step; [|repeat emits_step; done].
    emits_step. unfold delete_releases_item.
    emits_step; [emits_step|]. emits_step; [emits_step|].
    emits_step; [|repeat emits_step; done].
    emits_step; [emits_step|].
    emits_step; [by apply emits_only_send|].
    repeat emits_step; done.
Qed.

(** C9: a limit of 0 is no limit.  The check [if limit and count >= limit]
    never fires for 0, and each of the four cleanup operations called with
    a limit of 0 is the same computation as without a limit. *)
Theorem C9_limit_zero_is_no_limit (fuel : nat) (now : datetime)
    (org repo token : string) (time_frame_gt : option string) :
  (∀ count : Z, limit_reached (Some 0) count = limit_reached None count) ∧
  delete_releases transport strptime fuel now org repo token (Some 0)
    time_frame_gt
  = delete_releases transport strptime fuel now org repo token None
      time_frame_gt ∧
  delete_tags transport fuel org repo token (Some 0)
  = delete_tags transport fuel org repo token None ∧
  delete_branches transport fuel org repo token (Some 0)
  = delete_branches transport fuel org repo token None ∧
  close_issues transport fuel org repo token (Some 0)
  = close_issues transport fuel org repo token None.
Proof.
  assert (Hlimit : ∀ count, limit_reached (Some 0) count = false).
  { intros count. unfold limit_reached. reflexivity. }
  split; [intros count; by rewrite Hlimit|].
  (* With the check gone, the item bodies are the same functions. *)
  assert (delete_releases_item transport strptime (releases_url org repo)
            (auth_headers token) (Some 0)
          = delete_releases_item transport strptime (releases_url org repo)
              (auth_headers token) None) as Hreleases by reflexivity.
  assert (delete_tags_item transport org repo (auth_headers token) (Some 0)
          = delete_tags_item transport org repo (auth_headers token) None)
    as Htags by reflexivity.
  assert (delete_branches_item transport org repo (auth_headers token)
            (Some 0)
          = delete_branches_item transport org repo (auth_headers token) None)
    as Hbranches by reflexivity.
  assert (close_issues_item transport (issues_url org repo)
            (auth_headers token) (Some 0)
          = close_issues_item transport (issues_url org repo)
              (auth_headers token) None) as Hissues by reflexivity.
  unfold delete_releases, delete_tags, delete_branches, close_issues,
    delete_releases_page, delete_tags_page, delete_branches_page,
    close_issues_page.
  cbv zeta. rewrite Hreleases, Htags, Hbranches, Hissues. done.
Qed.

End Releases.



(** The scenario of the specification: with [--time-frame-gt 30d] and
    [--limit 2] on five releases older than thirty days, release cleanup
    returns after exactly two deletions and leaves three untouched. *)
Lemma delete_releases_scenario_limit_two :
  let old (id : Z) : gmap string pyval :=
    {[ "id" := PInt id; "created_at" := PStr "2020-01-01T00:00:00Z" ]} in
  let r := delete_releases replay strptime_utc 3 example_now "o" "r" "t"
             (Some 2) (Some "30d")
             [listing (old <$> [1; 2; 3; 4; 5]); no_content; no_content;
              no_content; no_content; no_content] in
  result r = Ok () ∧
  (λ x, req_url x.1) <$> exchanges (trace r)
  = ["https://api.github.com/repos/o/r/releases";
     "https://api.github.com/repos/o/r/releases/1";
     "https://api.github.com/repos/o/r/releases/2"] ∧
  last (trace r) = Some (Print (MsgReleaseLimit (Some 2))).
Proof. vm_compute. done. Qed.


(** ** How the operations end *)

Section Ensures.
Context {W : Type}.
Implicit Types (P : exn → Prop) (D : Prop).

Lemma ensures_ret {A} (Q : A → Prop) P D (a : A) :
  Q a → ensures Q P D (mret a : M W A).
Proof. intros Ha w. exact Ha. Qed.

Lemma ensures_raise {A} (Q : A → Prop) P D e :
  P e → ensures Q P D (raise e : M W A).
Proof. intros He w. exact He. Qed.



Lemma ensures_emit (Q : unit → Prop) P D e :
  Q () → ensures Q P D (emit e : M W unit).
Proof. intros H w. exact H. Qed.


Lemma ensures_bind {A B} (Q1 : A → Prop) (Q : B → Prop) P D (m : M W A)
    (f : A → M W B) :
  ensures Q1 P D m → (∀ a, Q1 a → ensures Q P D (f a)) →
  ensures Q P D (m ≫= f).
Proof.
  intros Hm Hf w. rewrite bind_run. specialize (Hm w).
  destruct (result (m w)) as [a| |]; cbn; [|done..].
  by apply Hf.
Qed.




End Ensures.

(** One step of a proof of [ensures]: the rule for the head of the
    computation, with a trivial condition on intermediate values. *)
Ltac ensures_step :=
  lazymatch goal with
  | |- ensures _ _ _ (mbind _ _) =>
      apply (ensures_bind (λ _, True)); [|intros ? _]
  | |- ensures _ _ _ (mret _) => apply ensures_ret
  | |- ensures _ _ _ (ret _) => apply ensures_ret
  | |- ensures _ _ _ (raise _) => apply ensures_raise
  | |- ensures _ _ _ (print _) => apply ensures_emit
  | |- ensures _ _ _ (sleep _) => apply ensures_emit
  | |- ensures _ _ _ (if ?b then _ else _) => destruct b
  end.

Section Endings.
Context {W : Type}.
Variable transport : W → request → response * W.
Variable strptime : string → option datetime.

(** With the default budget the executor always returns a response. *)
Lemma ensures_make_request (Q : response → Prop) (P : exn → Prop) (D : Prop)
    url method headers json :
  supported method → (∀ resp, Q resp) →
  ensures Q P D
    (make_request_with_retries transport url method headers json MAX_RETRIES).
Proof.
  intros Hm HQ w.
  destruct (make_request_with_retries_spec transport url method headers json
              MAX_RETRIES Hm w) as (_ & _ & H).
  destruct H as (resp & -> & _); [done|]. apply HQ.
Qed.









Lemma change_repository_name_ends org repo new_name token :
  ensures (λ _, True) (λ _, False) False
    (change_repository_name transport org repo new_name token).
Proof.
  unfold change_repository_name. cbv zeta.
  ensures_step; [apply ensures_make_request; [by right; right|done]|].
  repeat ensures_step; done.
Qed.


End Endings.

Section Failures.
Context {W : Type}.
Variable transport : W → request → response * W.
Variable strptime : string → option datetime.



End Failures.


(** * Further properties *)

(** ** The request executor at its edges *)

Section ExecutorEdges.
Context {W : Type}.
Variable transport : W → request → response * W.

Lemma make_request_attempt_unsupported (url method : string)
    (headers : gmap string string) (json : option (gmap string pyval))
    (retries attempt : Z) (last0 : option response) (w : W) :
  ¬ supported method →
  make_request_attempt transport url method headers json retries attempt
    last0 w
  = Run (Raise (ValueError ("Unsupported HTTP method: " +:+ method))) w [].
Proof.
  intros Hm. unfold supported in Hm. unfold make_request_attempt.
  rewrite bind_run. rewrite !bool_decide_eq_false_2 by tauto.
  reflexivity.
Qed.

(** X1: a method other than GET, DELETE and PATCH makes the executor raise
    [ValueError] in its first attempt: no request is sent, nothing is
    printed, and the world is as before. *)
Theorem X1_unsupported_method_raises_before_sending (url method : string)
    (headers : gmap string string) (json : option (gmap string pyval))
    (retries : Z) (w : W) :
  ¬ supported method →
  0 < retries →
  make_request_with_retries transport url method headers json retries w
  = Run (Raise (ValueError ("Unsupported HTTP method: " +:+ method))) w [].
Proof.
  intros Hm Hpos. unfold make_request_with_retries, seqZ.
  destruct (Z.to_nat retries) as [|k] eqn:Ek; [lia|].
  cbn [seq fmap list_fmap]. rewrite bind_run, for_in_cons.
  rewrite make_request_attempt_unsupported by done. reflexivity.
Qed.

(** X2: with a budget of zero or less the loop body never runs, and the
    final [return response] finds the variable unbound: the executor raises
    [UnboundLocalError] without sending anything, whatever the method. *)
Theorem X2_empty_budget_raises_unbound (url method : string)
    (headers : gmap string string) (json : option (gmap string pyval))
    (retries : Z) (w : W) :
  retries ≤ 0 →
  make_request_with_retries transport url method headers json retries w
  = Run (Raise UnboundLocalError) w [].
Proof.
  intros Hneg. unfold make_request_with_retries, seqZ.
  replace (Z.to_nat retries) with 0%nat by lia. reflexivity.
Qed.

Lemma slept_app tr1 tr2 : slept (tr1 ++ tr2) = slept tr1 + slept tr2.
Proof.
  unfold slept. induction tr1 as [|e tr1 IH]; [done|].
  cbn [app foldr]. rewrite IH. destruct e; lia.
Qed.

Lemma slept_attempt_events retries attempt req resp :
  slept (attempt_events retries attempt req resp)
  = if success resp then 0 else delay_after resp.
Proof.
  unfold attempt_events, delay_after, success.
  destruct (Z.eqb_spec (status_code resp) 403) as [->|]; [done|].
  by destruct (_ || _).
Qed.

Lemma last_attempt_events retries attempt req resp :
  last (attempt_events retries attempt req resp)
  = Some (if success resp then Request req resp
          else Sleep (delay_after resp)).
Proof.
  unfold attempt_events, delay_after, success.
  destruct (Z.eqb_spec (status_code resp) 403) as [->|]; [done|].
  by destruct (_ || _).
Qed.

Section Call.
Variables (url method : string) (headers : gmap string string)
  (json : option (gmap string pyval)) (retries : Z).
Hypothesis Hmethod : supported method.

Let req := executor_request url method headers json.
Let attempt := make_request_attempt transport url method headers json retries.

Lemma attempts_sleep (l : list Z) (last0 : option response) (w : W) :
  let r := for_in l attempt last0 w in
  0 ≤ slept (trace r) ≤ 60 * Z.of_nat (length l) ∧
  match result r with
  | Ok (inr resp) =>
      success resp = true ∧ last (trace r) = Some (Request req resp)
  | Ok (inl st) =>
      (l = [] ∧ st = last0 ∧ trace r = []) ∨
      (∃ resp, st = Some resp ∧ success resp = false ∧
         last (trace r) = Some (Sleep (delay_after resp)))
  | _ => False
  end.
Proof.
  revert last0 w. induction l as [|a l IH]; intros last0 w.
  { cbn. split; [lia|by left]. }
  cbn zeta. rewrite for_in_cons. subst attempt.
  rewrite make_request_attempt_run by done. cbn zeta. fold req.
  destruct (transport w req) as [resp w'] eqn:E.
  cbn [fst snd result world trace].
  pose proof (slept_attempt_events retries a req resp) as Hsl.
  pose proof (last_attempt_events retries a req resp) as Hla.
  assert (Hdelay : 0 ≤ delay_after resp ≤ 60).
  { unfold delay_after, RETRY_DELAY.
    destruct (status_code resp =? 403); lia. }
  assert (Hnot : (status_code resp =? 403) = true → success resp = false).
  { unfold success. intros H. apply Z.eqb_eq in H. by rewrite H. }
  assert (Hgo : success resp = false →
    let r' := for_in l
                (make_request_attempt transport url method headers json
                   retries) (Some resp) w' in
    0 ≤ slept (attempt_events retries a req resp ++ trace r')
      ≤ 60 * Z.of_nat (length (a :: l)) ∧
    match result r' with
    | Ok (inr resp') =>
        success resp' = true ∧
        last (attempt_events retries a req resp ++ trace r')
        = Some (Request req resp')
    | Ok (inl st) =>
        (a :: l = [] ∧ st = last0 ∧
         attempt_events retries a req resp ++ trace r' = []) ∨
        (∃ resp', st = Some resp' ∧ success resp' = false ∧
           last (attempt_events retries a req resp ++ trace r')
           = Some (Sleep (delay_after resp')))
    | _ => False
    end).
  { intros Hs r'. subst r'. rewrite Hs in Hsl, Hla.
    specialize (IH (Some resp) w'). cbn zeta in IH.
    destruct IH as [Hslept Hres]. rewrite slept_app, Hsl.
    split; [cbn [length]; lia|].
    destruct (result (for_in l _ (Some resp) w')) as [[st|resp']| |];
      try done.
    - right. destruct Hres as [(-> & -> & ->)|(resp' & -> & Hs' & Hlast)].
      + exists resp. by rewrite app_nil_r.
      + exists resp'. split; [done|]. split; [done|].
        by rewrite last_app, Hlast.
    - destruct Hres as [Hs' Hlast]. split; [done|].
      by rewrite last_app, Hlast. }
  destruct (status_code resp =? 403) eqn:E403.
  - by apply Hgo, Hnot.
  - destruct (success resp) eqn:Es.
    + cbn [result trace]. rewrite Hsl, Hla. split; [cbn [length]; lia|done].
    + by apply Hgo.
Qed.

(** X3: the executor never sleeps longer than 60 for each attempt of its
    budget, and a call that ends in failure ends asleep: after the last
    failed attempt it still waits (60 after a 403, [RETRY_DELAY] otherwise)
    before it returns the response, while a success is returned at once. *)
Theorem X3_executor_sleeps_after_last_failure (w : W) :
  0 < retries →
  let r :=
    make_request_with_retries transport url method headers json retries w in
  0 ≤ slept (trace r) ≤ 60 * retries ∧
  ∃ resp, result r = Ok resp ∧
    last (trace r)
    = Some (if success resp then Request req resp
            else Sleep (delay_after resp)).
Proof.
  intros Hpos. cbn zeta. rewrite make_request_with_retries_run by done.
  cbn zeta. pose proof (attempts_sleep (seqZ 0 retries) None w) as [Hsl Hres].
  cbn zeta in Hsl, Hres. rewrite length_seqZ in Hsl. fold attempt.
  destruct (result (for_in _ attempt None w)) as [[st|resp]| |]; try done.
  - destruct Hres as [(Hnil & _)|(resp & -> & Hs & Hlast)].
    { apply (f_equal length) in Hnil. rewrite length_seqZ in Hnil.
      cbn in Hnil. lia. }
    cbn [result trace]. split; [lia|]. exists resp. by rewrite Hs.
  - destruct Hres as [Hs Hlast]. cbn [result trace]. split; [lia|].
    exists resp. by rewrite Hs.
Qed.
End Call.
End ExecutorEdges.

Lemma X1_unsupported_method_raises_before_sending_witness :
  ¬ supported "PUT" ∧ 0 < MAX_RETRIES ∧
  make_request_with_retries replay "https://api.github.com/repos/o/r" "PUT"
    ∅ None MAX_RETRIES [no_content]
  = Run (Raise (ValueError ("Unsupported HTTP method: " +:+ "PUT")))
      [no_content] [].
Proof.
  assert (H1 : ¬ supported "PUT") by (intros [H|[H|H]]; discriminate H).
  assert (H2 : 0 < MAX_RETRIES) by (unfold MAX_RETRIES; lia).
  split; [exact H1|]. split; [exact H2|].
  exact (X1_unsupported_method_raises_before_sending replay
           "https://api.github.com/repos/o/r" "PUT" ∅ None MAX_RETRIES
           [no_content] H1 H2).
Defined.

Lemma X2_empty_budget_raises_unbound_witness :
  0 ≤ 0 ∧
  make_request_with_retries replay "https://api.github.com/repos/o/r" "GET"
    ∅ None 0 [no_content]
  = Run (Raise UnboundLocalError) [no_content] [].
Proof.
  assert (H : 0 ≤ 0) by lia. split; [exact H|].
  exact (X2_empty_budget_raises_unbound replay
           "https://api.github.com/repos/o/r" "GET" ∅ None 0 [no_content] H).
Defined.

Lemma X3_executor_sleeps_after_last_failure_witness :
  supported "GET" ∧ 0 < MAX_RETRIES ∧
  let r := make_request_with_retries replay
             "https://api.github.com/repos/o/r/branches" "GET" ∅ None
             MAX_RETRIES [server_error; rate_limited; server_error] in
  0 ≤ slept (trace r) ≤ 60 * MAX_RETRIES.
Proof.
  assert (H1 : supported "GET") by (left; reflexivity).
  assert (H2 : 0 < MAX_RETRIES) by (unfold MAX_RETRIES; lia).
  split; [exact H1|]. split; [exact H2|].
  exact (proj1 (X3_executor_sleeps_after_last_failure replay
                  "https://api.github.com/repos/o/r/branches" "GET" ∅ None
                  MAX_RETRIES H1
                  [server_error; rate_limited; server_error] H2)).
Defined.

(** ** Success statuses that do not agree *)

Section StatusMismatch.
Context {W : Type}.
Variable transport : W → request → response * W.

(** A first response with status 200 or 204 is returned at once. *)
Lemma make_request_with_retries_success (url method : string)
    (headers : gmap string string) (json : option (gmap string pyval))
    (w : W) :
  supported method →
  let req := executor_request url method headers json in
  success (transport w req).1 = true →
  make_request_with_retries transport url method headers json MAX_RETRIES w
  = Run (Ok (transport w req).1) (transport w req).2
      [Request req (transport w req).1].
Proof.
  intros Hm req Hs. rewrite make_request_with_retries_run by done.
  cbn zeta. change (seqZ 0 MAX_RETRIES) with [0; 1; 2].
  rewrite for_in_cons, make_request_attempt_run by done.
  cbn zeta. fold req.
  assert ((status_code (transport w req).1 =? 403) = false) as H403.
  { unfold success in Hs.
    destruct (Z.eqb_spec (status_code (transport w req).1) 403) as [E|];
      [|done].
    rewrite E in Hs. done. }
  cbn [result world trace]. unfold attempt_events.
  by rewrite H403, Hs.
Qed.

(** X4: the executor takes 204 for a success, but the callers that PATCH
    expect 200.  A PATCH answered 204 is therefore returned at once, without
    a retry, and reported as a failure: by the visibility change, by the
    rename, and by issue closing, which goes on with its counter
    unchanged. *)
Theorem X4_patch_answered_204_is_reported_failed :
  (∀ (org : string) (repo : pyval) (visibility token : string) (w : W),
     let req :=
       executor_request
         (GITHUB_API_URL +:+ "/repos/" +:+ org +:+ "/" +:+ py_str repo)
         "PATCH" (auth_headers token)
         (Some {[ "visibility" := PStr visibility ]}) in
     status_code (transport w req).1 = 204 →
     change_visibility_single transport org repo visibility token w
     = Run (Ok ()) (transport w req).2
         [Request req (transport w req).1;
          Print (MsgVisibilityFailed repo (text (transport w req).1))]) ∧
  (∀ (org repo new_name token : string) (w : W),
     let req :=
       executor_request (GITHUB_API_URL +:+ "/repos/" +:+ org +:+ "/" +:+ repo)
         "PATCH" (auth_headers token) (Some {[ "name" := PStr new_name ]}) in
     status_code (transport w req).1 = 204 →
     change_repository_name transport org repo new_name token w
     = Run (Ok ()) (transport w req).2
         [Request req (transport w req).1;
          Print (MsgNameFailed (text (transport w req).1))]) ∧
  (∀ (url : string) (headers : gmap string string) (limit : option Z)
     (issue : gmap string pyval) (issue_number title : pyval)
     (closed_count : Z) (w : W),
     issue !! "number" = Some issue_number →
     issue !! "title" = Some title →
     let req :=
       executor_request (url +:+ "/" +:+ py_str issue_number) "PATCH" headers
         (Some {[ "state" := PStr "closed" ]}) in
     status_code (transport w req).1 = 204 →
     close_issues_item transport url headers limit issue closed_count w
     = Run (Ok (Continue closed_count)) (transport w req).2
         [Request req (transport w req).1;
          Print (MsgCloseIssueFailed title (text (transport w req).1))]).
Proof.
  assert (Hpatch : supported "PATCH") by (right; right; reflexivity).
  assert (Hok : ∀ resp, status_code resp = 204 → success resp = true).
  { intros resp H. unfold success. by rewrite H. }
  split; [|split].
  - intros org repo visibility token w req H204.
    unfold change_visibility_single. cbv zeta. rewrite bind_run.
    rewrite make_request_with_retries_success by auto.
    cbn [result world trace]. fold req. rewrite H204. reflexivity.
  - intros org repo new_name token w req H204.
    unfold change_repository_name. cbv zeta. rewrite bind_run.
    rewrite make_request_with_retries_success by auto.
    cbn [result world trace]. fold req. rewrite H204. reflexivity.
  - intros url headers limit issue issue_number title closed_count w Hn Ht
      req H204.
    unfold close_issues_item, dict_item. rewrite Hn, Ht.
    rewrite bind_run. cbn [lift ret result world trace]. rewrite bind_run.
    rewrite make_request_with_retries_success by auto.
    cbn [result world trace]. fold req. rewrite H204. reflexivity.
Qed.

(** X5: conversely the callers that DELETE expect 204.  A delete of a tag
    or of a branch answered 200 is returned at once by the executor and
    reported as a failure; the counter is unchanged, so the deletion does
    not count towards the limit. *)
Theorem X5_delete_answered_200_is_reported_failed :
  (∀ (org repo : string) (headers : gmap string string) (limit : option Z)
     (tag : gmap string pyval) (ref : pyval) (deleted_count : Z) (w : W),
     tag !! "ref" = Some ref →
     let req :=
       executor_request (tag_delete_url org repo ref) "DELETE" headers None in
     status_code (transport w req).1 = 200 →
     delete_tags_item transport org repo headers limit tag deleted_count w
     = Run (Ok (Continue deleted_count)) (transport w req).2
         [Request req (transport w req).1;
          Print (MsgDeleteTagFailed ref (text (transport w req).1))]) ∧
  (∀ (org repo : string) (headers : gmap string string) (limit : option Z)
     (branch : gmap string pyval) (branch_name : pyval) (deleted_count : Z)
     (w : W),
     branch !! "name" = Some branch_name →
     py_in branch_name EXCLUDED_BRANCHES = false →
     let req :=
       executor_request (branch_delete_url org repo branch_name) "DELETE"
         headers None in
     status_code (transport w req).1 = 200 →
     delete_branches_item transport org repo headers limit branch
       deleted_count w
     = Run (Ok (Continue deleted_count)) (transport w req).2
         [Request req (transport w req).1;
          Print (MsgDeleteBranchFailed branch_name
                   (text (transport w req).1))]).
Proof.
  assert (Hdelete : supported "DELETE") by (right; left; reflexivity).
  assert (Hok : ∀ resp, status_code resp = 200 → success resp = true).
  { intros resp H. unfold success. by rewrite H. }
  split.
  - intros org repo headers limit tag ref deleted_count w Href req H200.
    unfold delete_tags_item, dict_item. rewrite Href.
    rewrite bind_run. cbn [lift ret result world trace]. rewrite bind_run.
    rewrite make_request_with_retries_success by auto.
    cbn [result world trace]. fold req. rewrite H200. reflexivity.
  - intros org repo headers limit branch branch_name deleted_count w Hname
      Hin req H200.
    unfold delete_branches_item, dict_item. rewrite Hname.
    rewrite bind_run. cbn [lift ret result world trace]. rewrite Hin.
    cbn [negb]. rewrite bind_run.
    rewrite make_request_with_retries_success by auto.
    cbn [result world trace]. fold req. rewrite H200. reflexivity.
Qed.
End StatusMismatch.

(** ** What the operations send *)

Section Shapes.
Context {W : Type}.
Variable transport : W → request → response * W.
Variable strptime : string → option datetime.


(** X7: issue closing never deletes.  Its requests are GETs without a
    payload and PATCHes whose payload sets the state to closed. *)
Theorem X7_issue_closing_lists_or_closes (fuel : nat)
    (org repo token : string) (limit : option Z) (w : W) :
  Forall lists_or_closes
    (trace (close_issues transport fuel org repo token limit w)).
Proof.
  revert w. change (emits_only lists_or_closes
    (close_issues transport fuel org repo token limit)).
  unfold close_issues. cbv zeta.
  emits_step; [|repeat emits_step; done].
  emits_step. unfold close_issues_page. destruct s as [params count].
  emits_step.
  { apply emits_only_make_request; [|done..]. intros resp. by left. }
  emits_step; [repeat emits_step; done|].
  emits_step; [repeat emits_step|].
  emits_step; [|repeat emits_step].
  emits_step. unfold close_issues_item.
  emits_step; [emits_step|].
  emits_step.
  { apply emits_only_make_request; [|done..]. intros resp. by right. }
  repeat emits_step; done.
Qed.
End Shapes.

(** ** The change command *)

Section ChangeCommand.
Context {W : Type}.
Variable transport : W → request → response * W.
Variable strptime : string → option datetime.

Lemma trace_starts_with_request {A B} (m : M W A) (f : A → M W B) (w : W)
    (req : request) (resp : response) (tr : list event) :
  trace (m w) = Request req resp :: tr →
  ∃ tr', trace ((m ≫= f) w) = Request req resp :: tr'.
Proof.
  intros Hm. destruct (trace_bind_prefix m f w) as [tr' ->].
  rewrite Hm. by eexists.
Qed.

(** A computation that begins with a call of the executor begins with a
    request. *)
Ltac starts_with_request Hmethod :=
  lazymatch goal with
  | |- ∃ req resp tr,
         trace ((make_request_with_retries ?t ?u ?me ?h ?j ?n ≫= ?f) ?w)
         = Request req resp :: tr =>
      let tr := fresh "tr" in
      let Htr := fresh "Htr" in
      destruct (make_request_with_retries_first t u me h j n Hmethod w
                  ltac:(done)) as [tr Htr];
      destruct (trace_starts_with_request _ f w _ _ _ Htr) as [? ?];
      eexists _, _, _; eassumption
  end.

(** X8: a change command reaches the network exactly when its options are
    complete.  With a new name but no repository, with [--all-repos] or a
    repository but no visibility, or with no target at all, [main] prints
    one usage message, sends nothing and returns; otherwise the first thing
    it does is send a request. *)
Theorem X8_change_sends_iff_complete (fuel : nat) (now : datetime)
    (org : string) (repo : option string) (all_repos : bool)
    (visibility change_name : option string) (token : string) (w : W) :
  let r := main transport strptime fuel now
             (Change org repo all_repos visibility change_name token) w in
  if change_complete repo all_repos visibility change_name
  then ∃ req resp tr, trace r = Request req resp :: tr
  else ∃ m, r = Run (Ok ()) w [Print m].
Proof.
  assert (Hpatch : supported "PATCH") by (right; right; reflexivity).
  assert (Hget : supported "GET") by (left; reflexivity).
  assert (Hpos : 0 < MAX_RETRIES) by done.
  cbn zeta. unfold main, change_complete.
  destruct (given change_name).
  { destruct (given repo); cbn [negb]; [|by eexists].
    unfold change_repository_name. cbv zeta.
    by starts_with_request Hpatch. }
  destruct all_repos.
  { destruct (given visibility); [|by eexists].
    unfold change_visibility_all. cbv zeta.
    by starts_with_request Hget. }
  destruct (given repo); cbn [andb]; [|by eexists].
  destruct (given visibility); [|by eexists].
  unfold change_visibility_single. cbv zeta.
  by starts_with_request Hpatch.
Qed.

(** X9: a new name takes precedence.  When [--change-name] and [--repo]
    are given, [main] returns normally and every request it sends is the
    PATCH that renames the repository: [--all-repos] and [--visibility]
    are ignored, and no visibility is changed. *)
Theorem X9_rename_takes_precedence (fuel : nat) (now : datetime)
    (org repo new_name token : string) (all_repos : bool)
    (visibility : option string) (w : W) :
  repo ≠ "" → new_name ≠ "" →
  let r := main transport strptime fuel now
             (Change org (Some repo) all_repos visibility (Some new_name)
                token) w in
  result r = Ok () ∧ Forall (renames org repo new_name token) (trace r).
Proof.
  intros Hrepo Hname. cbn zeta. unfold main, given.
  apply String.eqb_neq in Hrepo, Hname. rewrite Hrepo, Hname. cbn [negb].
  cbn [default]. split.
  - pose proof (change_repository_name_ends transport org repo new_name
                  token w) as H.
    by destruct (result _) as [[]| |].
  - revert w. change (emits_only (renames org repo new_name token)
      (change_repository_name transport org repo new_name token)).
    unfold change_repository_name. cbv zeta.
    emits_step; [|repeat emits_step; done].
    apply emits_only_make_request; done.
Qed.
End ChangeCommand.

Lemma X9_rename_takes_precedence_witness :
  "old" ≠ "" ∧ "new" ≠ "" ∧
  let r := main replay strptime_utc 0 example_now
             (Change "o" (Some "old") true (Some "private") (Some "new") "t")
             [listing []] in
  result r = Ok () ∧ Forall (renames "o" "old" "new" "t") (trace r).
Proof.
  assert (H1 : "old" ≠ "") by discriminate.
  assert (H2 : "new" ≠ "") by discriminate.
  split; [exact H1|]. split; [exact H2|].
  exact (X9_rename_takes_precedence replay strptime_utc 0 example_now
           "o" "old" "new" "t" true (Some "private") [listing []] H1 H2).
Defined.

(** ** Release cleanup at the cutoff *)

Lemma tuple_ltb_irrefl (a : list Z) : Calendar.tuple_ltb a a = false.
Proof.
  induction a as [|x a IH]; [done|].
  cbn [Calendar.tuple_ltb]. by rewrite Z.ltb_irrefl, Z.eqb_refl, IH.
Qed.

Lemma datetime_ltb_irrefl (d : datetime) : Calendar.datetime_ltb d d = false.
Proof. unfold Calendar.datetime_ltb. apply tuple_ltb_irrefl. Qed.

Lemma tuple_ltb_asym (a b : list Z) :
  Calendar.tuple_ltb a b = true → Calendar.tuple_ltb b a = false.
Proof.
  revert b. induction a as [|x a IH]; intros [|y b]; try done.
  cbn [Calendar.tuple_ltb].
  destruct (Z.ltb_spec x y), (Z.ltb_spec y x), (Z.eqb_spec x y),
    (Z.eqb_spec y x); try lia; cbn; auto.
Qed.

Section Cutoff.
Context {W : Type}.
Variable transport : W → request → response * W.
Variable strptime : string → option datetime.

(** X10: the comparison with the cutoff is strict in both directions.  A
    release created exactly at the cutoff, or at any time the cutoff is
    before, is skipped: one message, no request, the counter and the world
    unchanged. *)
Theorem X10_release_at_or_after_cutoff_is_skipped (url : string)
    (headers : gmap string string) (limit : option Z)
    (cutoff_date release_date : datetime) (release : gmap string pyval)
    (deleted_count : Z) (w : W) :
  created_at_of strptime release = Some release_date →
  release_date = cutoff_date
  ∨ Calendar.datetime_ltb cutoff_date release_date = true →
  delete_releases_item transport strptime url headers limit cutoff_date
    release deleted_count w
  = Run (Ok (Continue deleted_count)) w
      [Print (MsgSkippingRelease (release_name_of release) release_date
                cutoff_date)].
Proof.
  intros Hdate Hcmp. apply delete_releases_item_skip; [done|].
  destruct Hcmp as [->|Hlt]; [apply datetime_ltb_irrefl|].
  unfold Calendar.datetime_ltb in *. by apply tuple_ltb_asym.
Qed.
End Cutoff.

Lemma X10_release_at_or_after_cutoff_is_skipped_witness :
  let cutoff_date :=
    {| year := 2020; month := 1; day := 1;
       hour := 0; minute := 0; second := 0; microsecond := 0 |} in
  created_at_of strptime_utc release_1 = Some cutoff_date ∧
  (cutoff_date = cutoff_date
   ∨ Calendar.datetime_ltb cutoff_date cutoff_date = true) ∧
  delete_releases_item replay strptime_utc
    "https://api.github.com/repos/o/r/releases" ∅ None cutoff_date release_1
    0 [no_content]
  = Run (Ok (Continue 0)) [no_content]
      [Print (MsgSkippingRelease (release_name_of release_1) cutoff_date
                cutoff_date)].
Proof.
  intros cutoff_date.
  assert (H1 : created_at_of strptime_utc release_1 = Some cutoff_date)
    by reflexivity.
  assert (H2 : cutoff_date = cutoff_date
               ∨ Calendar.datetime_ltb cutoff_date cutoff_date = true)
    by (left; reflexivity).
  split; [exact H1|]. split; [exact H2|].
  exact (X10_release_at_or_after_cutoff_is_skipped replay strptime_utc
           "https://api.github.com/repos/o/r/releases" ∅ None cutoff_date
           cutoff_date release_1 0 [no_content] H1 H2).
Defined.

(** ** Bulk visibility change *)

Section Visibility.
Context {W : Type}.
Variable transport : W → request → response * W.

Lemma omap_none {A B} (f : A → option B) (l : list A) :
  Forall (λ x, f x = None) l → omap f l = [].
Proof.
  induction 1 as [|x l Hx _ IH]; [done|]. cbn. by rewrite Hx.
Qed.

Lemma visibility_steps_app tr1 tr2 :
  visibility_steps (tr1 ++ tr2) = visibility_steps tr1 ++ visibility_steps tr2.
Proof. apply omap_app. Qed.

(** The executor emits its one request, its two messages and delays. *)
Lemma emits_only_executor (P : event → Prop) url method headers json
    retries :
  (∀ resp, P (Request (executor_request url method headers json) resp)) →
  P (Print MsgRateLimit) →
  (∀ attempt body, P (Print (MsgAttemptFailed attempt retries body))) →
  (∀ n, P (Sleep n)) →
  emits_only P
    (make_request_with_retries transport url method headers json retries).
Proof.
  intros Hreq Hrate Hfailed Hsleep. unfold make_request_with_retries.
  emits_step; [|repeat emits_step].
  emits_step. unfold make_request_attempt.
  emits_step; [|repeat emits_step; done].
  unfold requests_get, requests_delete, requests_patch.
  repeat case_bool_decide; subst;
    first [apply emits_only_send; apply Hreq | apply emits_only_raise].
Qed.

Lemma visibility_steps_executor url method headers json retries w :
  visibility_steps
    (trace (make_request_with_retries transport url method headers json
              retries w)) = [].
Proof.
  apply omap_none.
  by apply (emits_only_executor (λ e, visibility_step_of e = None)).
Qed.

Lemma change_visibility_single_steps org repo visibility token w :
  let r := change_visibility_single transport org repo visibility token w in
  result r = Ok () ∧
  ∃ ok : bool,
    visibility_steps (trace r) = [if ok then Changed repo else NotChanged repo].
Proof.
  cbn zeta. unfold change_visibility_single. cbv zeta. rewrite bind_run.
  pose proof (ensures_make_request transport (λ _, True) (λ _, False) False
                (GITHUB_API_URL +:+ "/repos/" +:+ org +:+ "/" +:+ py_str repo)
                "PATCH" (auth_headers token)
                (Some {[ "visibility" := PStr visibility ]})
                ltac:(by right; right) ltac:(done) w) as Hcall.
  destruct (result (make_request_with_retries _ _ _ _ _ _ w))
    as [response| |]; [|done..].
  cbn [result world trace].
  rewrite visibility_steps_app, visibility_steps_executor.
  destruct (status_code response =? 200); (split; [done|]).
  - by exists true.
  - by exists false.
Qed.

(** The body of [for repo in repos]. *)
Let visibility_body (org visibility token : string)
    (repo : gmap string pyval) (_ : unit) : M W (loop_ctl unit unit) :=
  repo_name ← lift (dict_item repo "name");
  print (MsgChangingVisibility repo_name);;
  change_visibility_single transport org repo_name visibility token;;
  mret (Continue (R := unit) ()).

Lemma visibility_body_steps org visibility token repo name w :
  repo !! "name" = Some name →
  ∃ (ok : bool) w' tr,
    visibility_body org visibility token repo () w
    = Run (Ok (Continue ())) w' tr ∧
    visibility_steps tr = steps_for repo ok.
Proof.
  intros Hname. unfold visibility_body, dict_item, steps_for, dict_get.
  rewrite Hname. cbn [default].
  destruct (change_visibility_single_steps org name visibility token w)
    as (Hres & ok & Hsteps).
  exists ok. run_unfold.
  destruct (change_visibility_single transport org name visibility token w)
    as [res w' tr]. cbn in Hres, Hsteps |- *. subst res.
  eexists _, _. split; [reflexivity|].
  unfold visibility_steps in *. cbn. rewrite ?app_nil_r. by rewrite Hsteps.
Qed.

Lemma change_visibility_loop_steps org visibility token
    (repos : list (gmap string pyval)) (w : W) :
  Forall (λ repo, is_Some (repo !! "name")) repos →
  let r := for_in repos (visibility_body org visibility token) () w in
  result r = Ok (inl ()) ∧
  ∃ verdicts : list bool,
    length verdicts = length repos ∧
    visibility_steps (trace r) = concat (zip_with steps_for repos verdicts).
Proof.
  intros Hnames. revert w.
  induction Hnames as [|repo repos [name Hname] _ IH]; intros w.
  { split; [done|]. by exists []. }
  cbn zeta. rewrite for_in_cons.
  destruct (visibility_body_steps org visibility token repo name w Hname)
    as (ok & w' & tr & -> & Hsteps).
  cbn [result world trace].
  destruct (IH w') as (Hres & verdicts & Hlen & Hrest). cbn zeta in Hres, Hrest.
  split; [done|]. exists (ok :: verdicts). split; [cbn; lia|].
  rewrite visibility_steps_app, Hsteps, Hrest. done.
Qed.

(** X11: a bulk visibility change takes up every listed repository, in
    order, whatever the outcomes before it.  After a listing with status
    200 whose repositories all have a name, the run returns normally and
    reports for each repository that it takes it up and then one verdict,
    changed or failed; a failure for one repository does not keep the
    others from their turn.  After a failed listing nothing is changed: the
    run prints the failure and returns. *)
Theorem X11_bulk_change_takes_up_every_repository (org visibility token : string)
    (w : W) :
  let listing :=
    make_request_with_retries transport
      (GITHUB_API_URL +:+ "/orgs/" +:+ org +:+ "/repos") "GET"
      (auth_headers token) None MAX_RETRIES w in
  let r := change_visibility_all transport org visibility token w in
  ∃ response, result listing = Ok response ∧
    (status_code response ≠ 200 →
     r = Run (Ok ()) (world listing)
           (trace listing ++ [Print (MsgFetchReposFailed (text response))])) ∧
    (status_code response = 200 →
     Forall (λ repo, is_Some (repo !! "name")) (json response) →
     result r = Ok () ∧
     ∃ verdicts : list bool,
       length verdicts = length (json response) ∧
       visibility_steps (trace r)
       = concat (zip_with steps_for (json response) verdicts)).
Proof.
  cbn zeta. unfold change_visibility_all. cbv zeta. rewrite bind_run.
  pose proof (ensures_make_request transport (λ _, True) (λ _, False) False
                (GITHUB_API_URL +:+ "/orgs/" +:+ org +:+ "/repos")
                "GET" (auth_headers token) None
                ltac:(by left) ltac:(done) w) as Hcall.
  destruct (result (make_request_with_retries _ _ _ _ _ _ w))
    as [response| |]; [|done..].
  exists response. split; [done|]. cbn [result world trace]. split.
  - intros Hs. apply Z.eqb_neq in Hs. rewrite Hs. reflexivity.
  - intros Hs Hnames. apply Z.eqb_eq in Hs. rewrite Hs. cbn [negb].
    rewrite bind_run.
    change (for_in (json response) _ ())
      with (for_in (json response) (visibility_body org visibility token) ()).
    destruct (change_visibility_loop_steps org visibility token
                (json response) (world (make_request_with_retries transport
                   (GITHUB_API_URL +:+ "/orgs/" +:+ org +:+ "/repos") "GET"
                   (auth_headers token) None MAX_RETRIES w)) Hnames)
      as (Hres & verdicts & Hlen & Hsteps).
    cbn zeta in Hres, Hsteps. rewrite Hres. cbn [result world trace].
    split; [done|]. exists verdicts. split; [done|].
    rewrite app_nil_r, visibility_steps_app, visibility_steps_executor.
    exact Hsteps.
Qed.
End Visibility.

(** The scenario of the specification: on an organization with the
    repositories A, B and C, where the change of B fails with a server
    error at every attempt, the changes of A and of C go through. *)
Lemma change_visibility_all_scenario :
  let r := change_visibility_all replay "o" "private" "t"
             [listing [repo_a; repo_b; repo_c]; ok_200;
              server_error; server_error; server_error; ok_200] in
  result r = Ok () ∧
  visibility_steps (trace r)
  = [Announced (PStr "A"); Changed (PStr "A");
     Announced (PStr "B"); NotChanged (PStr "B");
     Announced (PStr "C"); Changed (PStr "C")].
Proof. vm_compute. done. Qed.

(** ** Tag cleanup against a server that is stuck *)

Section Stuck.
Context {W : Type}.
Variable transport : W → request → response * W.
Hypothesis Hstuck : stuck transport.

Lemma stuck_call url method headers json w :
  supported method →
  let req := executor_request url method headers json in
  make_request_with_retries transport url method headers json MAX_RETRIES w
  = Run (Ok (transport w req).1) (transport w req).2
      [Request req (transport w req).1].
Proof.
  intros Hm req. apply make_request_with_retries_success; [done|].
  unfold success. by rewrite (proj1 (Hstuck w _)).
Qed.

Lemma stuck_item org repo headers limit tag deleted_count w :
  is_Some (tag !! "ref") →
  result (delete_tags_item transport org repo headers limit tag
            deleted_count w) = Ok (Continue deleted_count).
Proof.
  intros [ref Href]. unfold delete_tags_item, dict_item. rewrite Href.
  rewrite bind_run. cbn [lift ret result world trace]. rewrite bind_run.
  rewrite stuck_call by (right; left; reflexivity).
  cbn [result world trace]. rewrite (proj1 (Hstuck w _)). reflexivity.
Qed.

Lemma stuck_items org repo headers limit tags deleted_count w :
  Forall (λ tag, is_Some (tag !! "ref")) tags →
  result (for_in tags (delete_tags_item transport org repo headers limit)
            deleted_count w) = Ok (inl deleted_count).
Proof.
  intros Htags. revert w. induction Htags as [|tag tags Hx _ IH]; intros w.
  { done. }
  rewrite for_in_cons, stuck_item by done. cbn [result]. apply IH.
Qed.

Lemma stuck_page org repo headers limit params deleted_count w :
  paged params →
  ∃ params',
    result (delete_tags_page transport org repo headers limit
              (params, deleted_count) w)
    = Ok (Continue (params', deleted_count)) ∧
    paged params' ∧
    (1 ≤ length (exchanges (trace (delete_tags_page transport org repo headers
                                     limit (params, deleted_count) w))))%nat.
Proof.
  intros Hpaged. destruct (Hpaged) as [[p Hp] [n Hn]].
  exists (<["page" := PInt (p + 1)]> params). split; [|split].
  - apply (delete_tags_page_continues transport org repo headers limit
             params p deleted_count w _ Hp).
    rewrite stuck_call by (left; reflexivity). cbn [result world].
    eexists. split; [reflexivity|].
    destruct (Hstuck w (executor_request (tags_url org repo) "GET" headers
                          (Some params))) as (Hs & Hj & Hrefs).
    split; [done|]. split; [done|]. exists deleted_count.
    split; [by apply stuck_items|done].
  - split; [exists (p + 1); apply lookup_insert_eq|].
    exists n. by rewrite lookup_insert_ne.
  - unfold delete_tags_page.
    match goal with
    | |- context [trace ((?m ≫= ?f) w)] =>
        destruct (trace_bind_prefix m f w) as [tr ->]
    end.
    rewrite stuck_call by (left; reflexivity). cbn [trace app exchanges omap].
    cbn. lia.
Qed.

(** X12: tag cleanup has no bound of its own.  Against a server that keeps
    answering 200 with a non-empty list of tags, every delete is taken for
    a failure (it expects 204), no page is ever empty, and the loop never
    ends: for every amount of fuel, and with or without a limit, the run is
    still going when the fuel is spent, having sent at least one request
    each turn. *)
Theorem X12_tag_cleanup_never_ends_when_stuck (fuel : nat)
    (org repo token : string) (limit : option Z) (w : W) :
  let r := delete_tags transport fuel org repo token limit w in
  result r = OutOfFuel ∧ (fuel ≤ length (exchanges (trace r)))%nat.
Proof.
  cbn zeta. unfold delete_tags. cbv zeta. fold first_page.
  assert (Hloop : ∀ fuel params count w, paged params →
            let r := while_true fuel
                       (delete_tags_page transport org repo
                          (auth_headers token) limit) (params, count) w in
            result r = OutOfFuel ∧
            (fuel ≤ length (exchanges (trace r)))%nat).
  { clear fuel w. intros fuel.
    induction fuel as [|fuel IH]; intros params count w Hpaged.
    { split; [done|cbn; lia]. }
    cbn zeta. rewrite while_true_S.
    destruct (stuck_page org repo (auth_headers token) limit params count w
                Hpaged) as (params' & -> & Hpaged' & Hlen).
    cbn [result world trace].
    destruct (IH params' count
                (world (delete_tags_page transport org repo
                          (auth_headers token) limit (params, count) w))
                Hpaged') as [Hres Hlen'].
    cbn zeta in Hres, Hlen'. split; [done|].
    rewrite exchanges_app, length_app. lia. }
  rewrite bind_run.
  destruct (Hloop fuel first_page 0 w) as [-> Hlen].
  { split; [by exists 1|by exists 50]. }
  done.
Qed.
End Stuck.

Lemma X12_tag_cleanup_never_ends_when_stuck_witness :
  stuck (constantly (listing [tag_v1])) ∧
  let r := delete_tags (constantly (listing [tag_v1])) 4 "o" "r" "t"
             (Some 1) () in
  result r = OutOfFuel ∧ (4 ≤ length (exchanges (trace r)))%nat.
Proof.
  assert (H : stuck (constantly (listing [tag_v1]))).
  { intros w req. split; [reflexivity|]. split; [discriminate|].
    constructor; [|constructor].
    exists (PStr "refs/tags/v1"). reflexivity. }
  split; [exact H|].
  exact (X12_tag_cleanup_never_ends_when_stuck
           (constantly (listing [tag_v1])) H 4 "o" "r" "t" (Some 1) ()).
Defined.

(** ** The pages release cleanup asks for *)

Section Pages.
Context {W : Type}.
Variable transport : W → request → response * W.
Variable strptime : string → option datetime.

Lemma pages_asked_app tr1 tr2 :
  pages_asked (tr1 ++ tr2) = pages_asked tr1 ++ pages_asked tr2.
Proof. apply omap_app. Qed.

(** The loop over the releases of a page lists nothing. *)
Lemma release_items_ask_no_page url headers limit cutoff_date
    (releases : list (gmap string pyval)) (deleted_count : Z) (w : W) :
  pages_asked
    (trace (for_in releases
              (delete_releases_item transport strptime url headers limit
                 cutoff_date) deleted_count w)) = [].
Proof.
  apply omap_none. revert w.
  change (emits_only (λ e, page_asked e = None)
    (for_in releases
       (delete_releases_item transport strptime url headers limit
          cutoff_date) deleted_count)).
  emits_step. unfold delete_releases_item.
  emits_step; [emits_step|]. emits_step; [emits_step|].
  emits_step; [|repeat emits_step; done].
  emits_step; [emits_step|].
  emits_step; [by apply emits_only_send|].
  repeat emits_step; done.
Qed.

(** One page asks for exactly the page its parameters name. *)
Lemma delete_releases_page_asks url headers limit cutoff_date
    (params : gmap string pyval) (p n : Z) (deleted_count : Z) (w : W) :
  params !! "page" = Some (PInt p) →
  params !! "per_page" = Some (PInt n) →
  pages_asked
    (trace (delete_releases_page transport strptime url headers limit
              cutoff_date (params, deleted_count) w))
  = [(Some (PInt p), Some (PInt n))].
Proof.
  intros Hp Hn.
  rewrite (delete_releases_page_run transport strptime url headers limit
             cutoff_date params p n) by done.
  cbv zeta.
  set (req := get_request url headers (Some params) None).
  assert (Hfetch : ∀ m resp tr,
    pages_asked (Print m :: Request req resp :: tr)
    = (Some (PInt p), Some (PInt n)) :: pages_asked tr).
  { intros m resp tr. unfold pages_asked. cbn. by rewrite Hp, Hn. }
  pose proof (release_items_ask_no_page url headers limit cutoff_date
    (json (transport w req).1) deleted_count (transport w req).2) as Hloop.
  destruct (negb _); [cbn [trace app]; by rewrite Hfetch|].
  case_bool_decide; [cbn [trace app]; by rewrite Hfetch|].
  destruct (result _) as [[count|[]]| |]; cbn [trace app];
    rewrite ?Hfetch, ?pages_asked_app, ?Hloop; try done.
  destruct (_ <? _); cbn [trace app];
    rewrite ?Hfetch, ?pages_asked_app, ?Hloop; done.
Qed.

Lemma delete_releases_loop_asks url headers limit cutoff_date (fuel : nat) :
  ∀ (params : gmap string pyval) (p : Z) (deleted_count : Z) (w : W),
    params !! "page" = Some (PInt p) →
    params !! "per_page" = Some (PInt 50) →
    ∃ k : nat,
      (k ≤ fuel)%nat ∧
      pages_asked
        (trace (while_true fuel
                  (delete_releases_page transport strptime url headers limit
                     cutoff_date) (params, deleted_count) w))
      = page_of_fifty <$> seqZ p (Z.of_nat k).
Proof.
  induction fuel as [|fuel IH]; intros params p c w Hp Hn.
  { by exists 0%nat. }
  rewrite while_true_S.
  pose proof (delete_releases_page_asks url headers limit cutoff_date
    params p 50 c w Hp Hn) as Hpage.
  destruct (result _) as [[[params' c']|st'|r]| |] eqn:Hres; cbn [trace].
  2-5: exists 1%nat; split; [lia|]; by rewrite Hpage.
  apply (delete_releases_page_continues transport strptime url headers
    limit cutoff_date params p c w _ Hp Hn) in Hres
    as (_ & _ & _ & count' & _ & [= -> ->]).
  destruct (IH (<["page" := PInt (p + 1)]> params) (p + 1) count'
    (world (delete_releases_page transport strptime url headers limit
              cutoff_date (params, c) w))) as (k & Hk & Hrest).
  { apply lookup_insert_eq. }
  { by rewrite lookup_insert_ne. }
  exists (S k). split; [lia|].
  rewrite pages_asked_app, Hpage, Hrest.
  rewrite (seqZ_cons p (Z.of_nat (S k))) by lia. cbn [fmap list_fmap app].
  do 3 f_equal; lia.
Qed.

(** X13: release cleanup asks for the pages 1, 2, 3, ... of the release
    listing in turn, fifty releases a page, and for nothing else: the page
    number goes up by one from one listing to the next whatever has been
    deleted in between, and no page is asked for twice. *)
Theorem X13_release_pages_are_consecutive (fuel : nat) (now : datetime)
    (org repo token : string) (limit : option Z)
    (time_frame_gt : option string) (w : W) :
  ∃ k : nat,
    (k ≤ fuel)%nat ∧
    pages_asked
      (trace (delete_releases transport strptime fuel now org repo token
                limit time_frame_gt w))
    = page_of_fifty <$> seqZ 1 (Z.of_nat k).
Proof.
  destruct (calculate_cutoff_date now time_frame_gt)
    as [e|cutoff_date] eqn:Hcutoff.
  { exists 0%nat. split; [lia|].
    unfold delete_releases. cbv zeta. rewrite Hcutoff. done. }
  rewrite (delete_releases_run transport strptime fuel now org repo token
             limit time_frame_gt cutoff_date w Hcutoff).
  cbv zeta.
  destruct (delete_releases_loop_asks (releases_url org repo)
    (auth_headers token) limit cutoff_date fuel first_page 1 0 w)
    as (k & Hk & Hloop); [done..|].
  exists k. split; [done|].
  destruct (result _) as [[[params count]|r]| |]; cbn [trace];
    change (pages_asked (Print ?m :: ?tr)) with (pages_asked tr);
    rewrite ?pages_asked_app, Hloop; cbn; by rewrite ?app_nil_r.
Qed.
End Pages.

(** ** Counting the mutations *)

Section Tallies.
Context {W : Type}.
Variable hit : event → bool.
Implicit Types E : Z → Prop.

Lemma tally_app tr1 tr2 :
  tally hit (tr1 ++ tr2) = tally hit tr1 + tally hit tr2.
Proof. unfold tally. rewrite filter_app, length_app. lia. Qed.

Lemma tally_miss e tr : hit e = false → tally hit (e :: tr) = tally hit tr.
Proof.
  intros He. unfold tally. by rewrite filter_cons_False by (by rewrite He).
Qed.

Lemma tally_hit e tr : hit e = true → tally hit (e :: tr) = 1 + tally hit tr.
Proof.
  intros He. unfold tally. rewrite filter_cons_True by done. cbn [length].
  lia.
Qed.

Lemma tallies_ret {A} (Q : A → Z → Prop) E (a : A) :
  Q a 0 → tallies hit Q E (mret a : M W A).
Proof. intros H w. exact H. Qed.

Lemma tallies_raise {A} (Q : A → Z → Prop) E e :
  E 0 → tallies hit Q E (raise e : M W A).
Proof. intros H w. exact H. Qed.

Lemma tallies_out_of_fuel {A} (Q : A → Z → Prop) E :
  E 0 → tallies hit Q E (out_of_fuel : M W A).
Proof. intros H w. exact H. Qed.

Lemma tallies_lift {A} (Q : A → Z → Prop) E (x : exn + A) :
  E 0 → (∀ a, x = inr a → Q a 0) → tallies hit Q E (lift x : M W A).
Proof. destruct x; intros HE HQ w; [exact HE|by apply HQ]. Qed.

Lemma tallies_emit (Q : unit → Z → Prop) E e :
  hit e = false → Q () 0 → tallies hit Q E (emit e : M W unit).
Proof.
  intros He H w. cbn. by rewrite tally_miss.
Qed.

Lemma tallies_bind {A B} (Q1 : A → Z → Prop) (Q : B → Z → Prop) E
    (m : M W A) (f : A → M W B) :
  tallies hit Q1 E m →
  (∀ a h, Q1 a h →
     tallies hit (λ b h', Q b (h + h')) (λ h', E (h + h')) (f a)) →
  tallies hit Q E (m ≫= f).
Proof.
  intros Hm Hf w. rewrite bind_run. specialize (Hm w).
  destruct (result (m w)) as [a| |]; cbn [result trace]; [|done..].
  rewrite tally_app. specialize (Hf a _ Hm (world (m w))).
  destruct (result (f a _)); exact Hf.
Qed.

Lemma tallies_mono {A} (Q Q' : A → Z → Prop) E E' (m : M W A) :
  (∀ a h, Q a h → Q' a h) → (∀ h, E h → E' h) →
  tallies hit Q E m → tallies hit Q' E' m.
Proof.
  intros HQ HE Hm w. specialize (Hm w). destruct (result (m w)); auto.
Qed.

(** Loops: [I s h] relates the state of the loop to the number of picked
    events so far. *)
Lemma tallies_for_in {A S R} (I : S → Z → Prop) (QR : R → Z → Prop) E
    (l : list A) (body : A → S → M W (loop_ctl S R)) :
  (∀ x s h, I s h →
     tallies hit (λ c h', match c with
                          | Continue s' | Break s' => I s' (h + h')
                          | Return r => QR r (h + h')
                          end) (λ h', E (h + h')) (body x s)) →
  ∀ s h, I s h →
    tallies hit (λ v h', match v with
                         | inl s' => I s' (h + h')
                         | inr r => QR r (h + h')
                         end) (λ h', E (h + h')) (for_in l body s).
Proof.
  intros Hbody. induction l as [|x l IH]; intros s h Hs.
  - apply tallies_ret. by rewrite Z.add_0_r.
  - cbn [for_in]. eapply tallies_bind; [by apply Hbody|].
    intros [s'|s'|r] h' Hc; cbn beta.
    + eapply tallies_mono; [| |apply (IH s' (h + h') Hc)]; cbn beta.
      * intros [s''|r] h''; by rewrite Z.add_assoc.
      * intros h''. by rewrite Z.add_assoc.
    + apply tallies_ret. by rewrite Z.add_0_r.
    + apply tallies_ret. by rewrite Z.add_0_r.
Qed.

Lemma tallies_while_true {S R} (I : S → Z → Prop) (QR : R → Z → Prop) E
    (fuel : nat) (body : S → M W (loop_ctl S R)) :
  (∀ s h, I s h → E h) →
  (∀ s h, I s h →
     tallies hit (λ c h', match c with
                          | Continue s' | Break s' => I s' (h + h')
                          | Return r => QR r (h + h')
                          end) (λ h', E (h + h')) (body s)) →
  ∀ s h, I s h →
    tallies hit (λ v h', match v with
                         | inl s' => I s' (h + h')
                         | inr r => QR r (h + h')
                         end) (λ h', E (h + h')) (while_true fuel body s).
Proof.
  intros HE Hbody. induction fuel as [|fuel IH]; intros s h Hs.
  - apply tallies_out_of_fuel. rewrite Z.add_0_r. by eapply HE.
  - cbn [while_true]. eapply tallies_bind; [by apply Hbody|].
    intros [s'|s'|r] h' Hc; cbn beta.
    + eapply tallies_mono; [| |apply (IH s' (h + h') Hc)]; cbn beta.
      * intros [s''|r] h''; by rewrite Z.add_assoc.
      * intros h''. by rewrite Z.add_assoc.
    + apply tallies_ret. by rewrite Z.add_0_r.
    + apply tallies_ret. by rewrite Z.add_0_r.
Qed.
End Tallies.

Section ExecutorTally.
Context {W : Type}.
Variable transport : W → request → response * W.
Variables (counted : string) (status : Z).
Hypothesis Hstatus : status = 200 ∨ status = 204.

Let hit := answered counted status.

Lemma answered_failure req resp :
  success resp = false → hit (Request req resp) = false.
Proof.
  unfold success, hit, answered. intros Hs.
  apply orb_false_elim in Hs as [H200 H204].
  destruct Hstatus as [-> | ->]; rewrite ?H200, ?H204;
    apply andb_false_r.
Qed.

Lemma tally_attempt_events retries attempt req resp :
  tally hit (attempt_events retries attempt req resp)
  = if hit (Request req resp) then 1 else 0.
Proof.
  unfold attempt_events.
  assert (Hrest : tally hit
            (if status_code resp =? 403 then [Print MsgRateLimit; Sleep 60]
             else if success resp then []
             else [Print (MsgAttemptFailed (attempt + 1) retries (text resp));
                   Sleep RETRY_DELAY]) = 0).
  { destruct (_ =? 403); [done|]. by destruct (success resp). }
  destruct (hit (Request req resp)) eqn:Hhit.
  - rewrite tally_hit by done. rewrite Hrest. done.
  - rewrite tally_miss by done. done.
Qed.

Section Call.
Variables (url method : string) (headers : gmap string string)
  (json : option (gmap string pyval)) (retries : Z).
Hypothesis Hmethod : supported method.

Let req := executor_request url method headers json.
Let attempt := make_request_attempt transport url method headers json retries.

(** Of the exchanges of a call, only the one that is returned can be a
    success. *)
Lemma attempts_tally (l : list Z) (last0 : option response) (w : W) :
  (∀ resp, last0 = Some resp → success resp = false) →
  let r := for_in l attempt last0 w in
  match result r with
  | Ok (inr resp) =>
      tally hit (trace r) = if hit (Request req resp) then 1 else 0
  | Ok (inl st) =>
      (∀ resp, st = Some resp → success resp = false) ∧
      tally hit (trace r) = 0
  | _ => False
  end.
Proof.
  revert last0 w. induction l as [|a l IH]; intros last0 w Hlast.
  { cbn. done. }
  cbn zeta. rewrite for_in_cons. subst attempt.
  rewrite make_request_attempt_run by done. cbn zeta. fold req.
  destruct (transport w req) as [resp w'] eqn:E.
  cbn [fst snd result world trace].
  assert (Hsucc : (status_code resp =? 403) = true → success resp = false).
  { unfold success. intros H. apply Z.eqb_eq in H. rewrite H. reflexivity. }
  assert (Hgoes : success resp = false →
    match result
      (for_in l (make_request_attempt transport url method headers json
                   retries) (Some resp) w') with
    | Ok (inr resp') =>
        tally hit
          (attempt_events retries a req resp ++
           trace (for_in l (make_request_attempt transport url method
                              headers json retries) (Some resp) w'))
        = if hit (Request req resp') then 1 else 0
    | Ok (inl st) =>
        (∀ resp', st = Some resp' → success resp' = false) ∧
        tally hit
          (attempt_events retries a req resp ++
           trace (for_in l (make_request_attempt transport url method
                              headers json retries) (Some resp) w')) = 0
    | _ => False
    end).
  { intros Hfail. specialize (IH (Some resp) w'). cbn zeta in IH.
    rewrite tally_app, tally_attempt_events, answered_failure by done.
    destruct (result (for_in l _ (Some resp) w')) as [[st|r]| |];
      apply IH; by intros ? [= <-]. }
  destruct (status_code resp =? 403) eqn:E403;
    [|destruct (success resp) eqn:Es]; cbn [result world trace].
  - apply Hgoes. by apply Hsucc.
  - apply tally_attempt_events.
  - by apply Hgoes.
Qed.

Lemma make_request_with_retries_tally (w : W) :
  let r :=
    make_request_with_retries transport url method headers json retries w
  in
  tally hit (trace r)
  = match result r with
    | Ok resp => if hit (Request req resp) then 1 else 0
    | _ => 0
    end.
Proof.
  cbn zeta. rewrite make_request_with_retries_run by done. cbn zeta.
  pose proof (attempts_tally (seqZ 0 retries) None w) as H.
  cbn zeta in H. fold attempt.
  destruct (result (for_in _ attempt None w)) as [[[resp|]|resp]| |];
    cbn [result trace]; try (by destruct H).
  destruct H as [Hfail ->]; [done|].
  by rewrite answered_failure by by apply Hfail.
Qed.
End Call.

(** What the executor adds to the count: one when it returns a response to
    a [counted] request with the [status] looked for, and nothing
    otherwise. *)
Lemma tallies_make_request (Q : response → Z → Prop) (E : Z → Prop)
    url method headers json retries :
  supported method → E 0 →
  (∀ resp,
     Q resp (if bool_decide (method = counted) && (status_code resp =? status)
             then 1 else 0)) →
  tallies hit Q E
    (make_request_with_retries transport url method headers json retries).
Proof.
  intros Hm HE HQ w.
  rewrite (make_request_with_retries_tally url method headers json retries
             Hm w).
  destruct (result _); [apply HQ|done..].
Qed.
End ExecutorTally.

(** One step of a proof of [tallies] for a step that adds nothing to the
    count. *)
Ltac tallies_step :=
  lazymatch goal with
  | |- tallies _ _ _ (mbind _ (lift _)) =>
      eapply (tallies_bind _ (λ _ k, k = 0));
        [apply tallies_lift; [cbn beta|done] | intros ? ? ->; cbn beta]
  | |- tallies _ _ _ (mbind _ (print _)) =>
      eapply (tallies_bind _ (λ _ k, k = 0));
        [by apply tallies_emit | intros ? ? ->; cbn beta]
  | |- tallies _ _ _ (mret _) => apply tallies_ret; cbn beta
  end.

Section Limits.
Context {W : Type}.
Variable transport : W → request → response * W.
Variable limit : option Z.

Lemma within_limit_capped (c : Z) : within_limit limit c → capped limit c.
Proof. intros H l Hl Hpos. specialize (H l Hl Hpos). lia. Qed.

Lemma limit_reached_capped (c : Z) :
  within_limit limit c → capped limit (c + 1).
Proof. intros H l Hl Hpos. specialize (H l Hl Hpos). lia. Qed.

Lemma limit_not_reached_within (c : Z) :
  limit_reached limit c = false → within_limit limit c.
Proof.
  intros Hlim l -> Hpos. unfold limit_reached in Hlim.
  destruct (Z.eqb_spec l 0); [lia|].
  destruct (Z.leb_spec l c); [done|lia].
Qed.

(** What the body of a [for] loop over a page keeps: the counter is the
    number of counted events so far and has not reached the limit. *)
Let counts (c : Z) (h : Z) : Prop := c = h ∧ within_limit limit c.

Let item_counts (h : Z) (c : loop_ctl Z unit) (h' : Z) : Prop :=
  match c with
  | Continue c' | Break c' => counts c' (h + h')
  | Return _ => capped limit (h + h')
  end.

Lemma delete_tags_item_tallies org repo headers tag c h :
  counts c h →
  tallies (answered "DELETE" 204) (item_counts h)
    (λ h', capped limit (h + h'))
    (delete_tags_item transport org repo headers limit tag c).
Proof.
  intros [-> Hc]. unfold delete_tags_item.
  tallies_step.
  { rewrite Z.add_0_r. by apply within_limit_capped. }
  eapply (tallies_bind _
    (λ resp k, k = if status_code resp =? 204 then 1 else 0)).
  { apply tallies_make_request; [by right|by right; left| |done].
    rewrite !Z.add_0_r. by apply within_limit_capped. }
  intros resp ? ->. cbn beta.
  destruct (status_code resp =? 204).
  - tallies_step. destruct (limit_reached limit (h + 1)) eqn:Hlim.
    + tallies_step. tallies_step. unfold item_counts.
      rewrite !Z.add_0_r, !Z.add_0_l. by apply limit_reached_capped.
    + tallies_step. unfold item_counts, counts.
      rewrite !Z.add_0_r, !Z.add_0_l.
      split; [done|by apply limit_not_reached_within].
  - tallies_step. tallies_step. unfold item_counts, counts.
    by rewrite !Z.add_0_r.
Qed.

Lemma delete_branches_item_tallies org repo headers branch c h :
  counts c h →
  tallies (answered "DELETE" 204) (item_counts h)
    (λ h', capped limit (h + h'))
    (delete_branches_item transport org repo headers limit branch c).
Proof.
  intros [-> Hc]. unfold delete_branches_item.
  tallies_step.
  { rewrite Z.add_0_r. by apply within_limit_capped. }
  destruct (negb _).
  2:{ tallies_step. unfold item_counts, counts. by rewrite !Z.add_0_r. }
  eapply (tallies_bind _
    (λ resp k, k = if status_code resp =? 204 then 1 else 0)).
  { apply tallies_make_request; [by right|by right; left| |done].
    rewrite !Z.add_0_r. by apply within_limit_capped. }
  intros resp ? ->. cbn beta.
  destruct (status_code resp =? 204).
  - tallies_step. destruct (limit_reached limit (h + 1)) eqn:Hlim.
    + tallies_step. tallies_step. unfold item_counts.
      rewrite !Z.add_0_r, !Z.add_0_l. by apply limit_reached_capped.
    + tallies_step. unfold item_counts, counts.
      rewrite !Z.add_0_r, !Z.add_0_l.
      split; [done|by apply limit_not_reached_within].
  - tallies_step. tallies_step. unfold item_counts, counts.
    by rewrite !Z.add_0_r.
Qed.

Lemma close_issues_item_tallies url headers issue c h :
  counts c h →
  tallies (answered "PATCH" 200) (item_counts h)
    (λ h', capped limit (h + h'))
    (close_issues_item transport url headers limit issue c).
Proof.
  intros [-> Hc]. unfold close_issues_item.
  tallies_step.
  { rewrite Z.add_0_r. by apply within_limit_capped. }
  eapply (tallies_bind _
    (λ resp k, k = if status_code resp =? 200 then 1 else 0)).
  { apply tallies_make_request; [by left|by right; right| |done].
    rewrite !Z.add_0_r. by apply within_limit_capped. }
  intros resp ? ->. cbn beta.
  destruct (status_code resp =? 200).
  - tallies_step.
    { rewrite !Z.add_0_r, !Z.add_0_l. by apply limit_reached_capped. }
    tallies_step. destruct (limit_reached limit (h + 1)) eqn:Hlim.
    + tallies_step. tallies_step. unfold item_counts.
      rewrite !Z.add_0_r, !Z.add_0_l. by apply limit_reached_capped.
    + tallies_step. unfold item_counts, counts.
      rewrite !Z.add_0_r, !Z.add_0_l.
      split; [done|by apply limit_not_reached_within].
  - tallies_step.
    { rewrite !Z.add_0_r. by apply within_limit_capped. }
    tallies_step. tallies_step. unfold item_counts, counts.
    by rewrite !Z.add_0_r.
Qed.

(** What the body of [while True] keeps. *)
Let page_counts (h : Z) (c : loop_ctl (gmap string pyval * Z) unit)
    (h' : Z) : Prop :=
  match c with
  | Continue s' | Break s' => counts s'.2 (h + h')
  | Return _ => capped limit (h + h')
  end.

Lemma delete_tags_page_tallies org repo headers st h :
  counts st.2 h →
  tallies (answered "DELETE" 204) (page_counts h)
    (λ h', capped limit (h + h'))
    (delete_tags_page transport org repo headers limit st).
Proof.
  destruct st as [params c]. cbn [snd]. intros Hc. pose proof Hc as [-> Hw].
  unfold delete_tags_page.
  eapply (tallies_bind _ (λ _ k, k = 0)).
  { apply tallies_make_request; [by right|by left| |done].
    rewrite !Z.add_0_r. by apply within_limit_capped. }
  intros response ? ->. cbn beta.
  destruct (negb _).
  { tallies_step. tallies_step. unfold page_counts.
    rewrite !Z.add_0_r. by apply within_limit_capped. }
  cbv zeta. case_bool_decide.
  { tallies_step. unfold page_counts. by rewrite !Z.add_0_r. }
  eapply (tallies_bind _
    (λ v h', match v with
             | inl c' => counts c' (h + h')
             | inr _ => capped limit (h + h')
             end)).
  { eapply tallies_mono; [| |
      apply (tallies_for_in _ counts (λ _, capped limit) (capped limit)
               (json response) _
               (λ x s k, delete_tags_item_tallies org repo headers x s k)
               h h Hc)]; cbn beta.
    - done.
    - intros k. by rewrite Z.add_0_l. }
  intros [c'|r] h' Hv; cbn beta.
  - tallies_step.
    { rewrite !Z.add_0_r, !Z.add_0_l. destruct Hv as [<- Hv].
      by apply within_limit_capped. }
    tallies_step. unfold page_counts. cbn [snd].
    by rewrite !Z.add_0_r, !Z.add_0_l.
  - tallies_step. unfold page_counts. by rewrite !Z.add_0_r, !Z.add_0_l.
Qed.

Lemma delete_branches_page_tallies org repo headers st h :
  counts st.2 h →
  tallies (answered "DELETE" 204) (page_counts h)
    (λ h', capped limit (h + h'))
    (delete_branches_page transport org repo headers limit st).
Proof.
  destruct st as [params c]. cbn [snd]. intros Hc. pose proof Hc as [-> Hw].
  unfold delete_branches_page.
  eapply (tallies_bind _ (λ _ k, k = 0)).
  { apply tallies_make_request; [by right|by left| |done].
    rewrite !Z.add_0_r. by apply within_limit_capped. }
  intros response ? ->. cbn beta.
  destruct (negb _).
  { tallies_step. tallies_step. unfold page_counts.
    rewrite !Z.add_0_r. by apply within_limit_capped. }
  cbv zeta. case_bool_decide.
  { tallies_step. unfold page_counts. by rewrite !Z.add_0_r. }
  eapply (tallies_bind _
    (λ v h', match v with
             | inl c' => counts c' (h + h')
             | inr _ => capped limit (h + h')
             end)).
  { eapply tallies_mono; [| |
      apply (tallies_for_in _ counts (λ _, capped limit) (capped limit)
               (json response) _
               (λ x s k, delete_branches_item_tallies org repo headers x s k)
               h h Hc)]; cbn beta.
    - done.
    - intros k. by rewrite Z.add_0_l. }
  intros [c'|r] h' Hv; cbn beta.
  - tallies_step.
    { rewrite !Z.add_0_r, !Z.add_0_l. destruct Hv as [<- Hv].
      by apply within_limit_capped. }
    tallies_step. unfold page_counts. cbn [snd].
    by rewrite !Z.add_0_r, !Z.add_0_l.
  - tallies_step. unfold page_counts. by rewrite !Z.add_0_r, !Z.add_0_l.
Qed.

Lemma close_issues_page_tallies url headers st h :
  counts st.2 h →
  tallies (answered "PATCH" 200) (page_counts h)
    (λ h', capped limit (h + h'))
    (close_issues_page transport url headers limit st).
Proof.
  destruct st as [params c]. cbn [snd]. intros Hc. pose proof Hc as [-> Hw].
  unfold close_issues_page.
  eapply (tallies_bind _ (λ _ k, k = 0)).
  { apply tallies_make_request; [by left|by left| |done].
    rewrite !Z.add_0_r. by apply within_limit_capped. }
  intros response ? ->. cbn beta.
  destruct (negb _).
  { tallies_step. tallies_step. unfold page_counts.
    rewrite !Z.add_0_r. by apply within_limit_capped. }
  cbv zeta. case_bool_decide.
  { tallies_step. unfold page_counts. by rewrite !Z.add_0_r. }
  eapply (tallies_bind _
    (λ v h', match v with
             | inl c' => counts c' (h + h')
             | inr _ => capped limit (h + h')
             end)).
  { eapply tallies_mono; [| |
      apply (tallies_for_in _ counts (λ _, capped limit) (capped limit)
               (json response) _
               (λ x s k, close_issues_item_tallies url headers x s k)
               h h Hc)]; cbn beta.
    - done.
    - intros k. by rewrite Z.add_0_l. }
  intros [c'|r] h' Hv; cbn beta.
  - tallies_step.
    { rewrite !Z.add_0_r, !Z.add_0_l. destruct Hv as [<- Hv].
      by apply within_limit_capped. }
    tallies_step. unfold page_counts. cbn [snd].
    by rewrite !Z.add_0_r, !Z.add_0_l.
  - tallies_step. unfold page_counts. by rewrite !Z.add_0_r, !Z.add_0_l.
Qed.


Lemma within_limit_start : within_limit limit 0.
Proof. intros l _ Hpos. done. Qed.

(** The whole loop of an operation, started with a count of zero. *)
Lemma cleanup_loop_tallies (hit : event → bool) (fuel : nat)
    (page : gmap string pyval * Z
            → M W (loop_ctl (gmap string pyval * Z) unit))
    (params : gmap string pyval) (w : W) :
  (∀ st h, counts st.2 h →
     tallies hit (page_counts h) (λ h', capped limit (h + h')) (page st)) →
  let r := while_true fuel page (params, 0) w in
  match result r with
  | Ok (inl (_, c)) => c = tally hit (trace r)
  | _ => True
  end ∧ capped limit (tally hit (trace r)).
Proof.
  intros Hpage.
  pose proof (tallies_while_true hit (λ st h, counts st.2 h)
    (λ _, capped limit) (capped limit) fuel page) as Hloop.
  specialize (Hloop (λ st h Hs, within_limit_capped h
    (eq_ind _ (within_limit limit) (proj2 Hs) _ (proj1 Hs)))).
  specialize (Hloop Hpage (params, 0) 0 (conj eq_refl within_limit_start) w).
  cbv zeta. cbn beta in Hloop. rewrite !Z.add_0_l in Hloop.
  destruct (result _) as [[[params' c]|r]| |]; try done.
  destruct Hloop as [Hc Hw]. cbn [snd] in Hc, Hw.
  split; [done|]. rewrite <- Hc. by apply within_limit_capped.
Qed.

End Limits.

Section Totals.
Context {W : Type}.
Variable transport : W → request → response * W.

Ltac executor_reports_nothing :=
  apply emits_only_executor; done.

(** The totals are printed after the loops, not inside them. *)
Lemma delete_tags_loop_reports_nothing fuel org repo headers limit st :
  emits_only (λ e, reported_total e = None)
    (while_true fuel (delete_tags_page transport org repo headers limit) st).
Proof.
  emits_step. unfold delete_tags_page. destruct s as [params count].
  emits_step; [executor_reports_nothing|].
  emits_step; [repeat emits_step; done|].
  emits_step; [repeat emits_step|].
  emits_step; [|repeat emits_step].
  emits_step. unfold delete_tags_item.
  emits_step; [emits_step|].
  emits_step; [executor_reports_nothing|].
  repeat emits_step; done.
Qed.

Lemma delete_branches_loop_reports_nothing fuel org repo headers limit st :
  emits_only (λ e, reported_total e = None)
    (while_true fuel (delete_branches_page transport org repo headers limit)
       st).
Proof.
  emits_step. unfold delete_branches_page. destruct s as [params count].
  emits_step; [executor_reports_nothing|].
  emits_step; [repeat emits_step; done|].
  emits_step; [repeat emits_step|].
  emits_step; [|repeat emits_step].
  emits_step. unfold delete_branches_item.
  emits_step; [emits_step|].
  emits_step; [|emits_step].
  emits_step; [executor_reports_nothing|].
  repeat emits_step; done.
Qed.

Lemma close_issues_loop_reports_nothing fuel url headers limit st :
  emits_only (λ e, reported_total e = None)
    (while_true fuel (close_issues_page transport url headers limit) st).
Proof.
  emits_step. unfold close_issues_page. destruct s as [params count].
  emits_step; [executor_reports_nothing|].
  emits_step; [repeat emits_step; done|].
  emits_step; [repeat emits_step|].
  emits_step; [|repeat emits_step].
  emits_step. unfold close_issues_item.
  emits_step; [emits_step|].
  emits_step; [executor_reports_nothing|].
  repeat emits_step; done.
Qed.

(** An operation as a whole: its loop, then the total if the loop was left
    by [break]. *)
Lemma cleanup_total (hit : event → bool) (limit : option Z)
    (finished : Z → msg) (loop : run W (gmap string pyval * Z + unit)) :
  (∀ n, hit (Print (finished n)) = false) →
  (∀ n, reported_total (Print (finished n)) = Some n) →
  totals (trace loop) = [] →
  match result loop with
  | Ok (inl (_, c)) => c = tally hit (trace loop)
  | _ => True
  end ∧ capped limit (tally hit (trace loop)) →
  let r :=
    match result loop with
    | Ok (inl (_, c)) =>
        Run (Ok ()) (world loop) (trace loop ++ [Print (finished c)])
    | Ok (inr _) => Run (Ok ()) (world loop) (trace loop ++ [])
    | Raise e => Run (Raise e) (world loop) (trace loop)
    | OutOfFuel => Run OutOfFuel (world loop) (trace loop)
    end in
  capped limit (tally hit (trace r)) ∧
  (totals (trace r) = [] ∨ totals (trace r) = [tally hit (trace r)]).
Proof.
  intros Hmiss Hrep Hnone [Hc Hcap]. cbv zeta.
  destruct (result loop) as [[[params c]|[]]| |]; cbn [trace];
    unfold totals in *; rewrite ?app_nil_r, ?tally_app, ?omap_app, ?Hnone;
    rewrite ?tally_miss by done; try (split; [done|by left]).
  change (tally hit []) with 0. rewrite Z.add_0_r. split; [done|].
  replace (omap reported_total [Print (finished c)]) with [c]
    by (cbv [omap list_omap]; by rewrite Hrep).
  right. by rewrite Hc.
Qed.

Lemma delete_tags_counts fuel org repo token limit w :
  let r := delete_tags transport fuel org repo token limit w in
  capped limit (count_answered "DELETE" 204 (trace r)) ∧
  (totals (trace r) = [] ∨
   totals (trace r) = [count_answered "DELETE" 204 (trace r)]).
Proof.
  cbv zeta. unfold delete_tags, count_answered. cbv zeta. rewrite bind_run.
  set (loop := while_true fuel _ _ w).
  pose proof (cleanup_total (answered "DELETE" 204) limit MsgFinishedTags
    loop (λ _, eq_refl) (λ _, eq_refl)
    (omap_none _ _ (delete_tags_loop_reports_nothing _ _ _ _ _ _ w))
    (cleanup_loop_tallies limit _ fuel _ _ w
       (delete_tags_page_tallies transport limit org repo
          (auth_headers token)))) as H.
  cbv zeta in H.
  destruct (result loop) as [[[p c]|[]]| |]; exact H.
Qed.

Lemma delete_branches_counts fuel org repo token limit w :
  let r := delete_branches transport fuel org repo token limit w in
  capped limit (count_answered "DELETE" 204 (trace r)) ∧
  (totals (trace r) = [] ∨
   totals (trace r) = [count_answered "DELETE" 204 (trace r)]).
Proof.
  cbv zeta. unfold delete_branches, count_answered. cbv zeta.
  rewrite bind_run.
  set (loop := while_true fuel _ _ w).
  pose proof (cleanup_total (answered "DELETE" 204) limit
    MsgFinishedBranches loop (λ _, eq_refl) (λ _, eq_refl)
    (omap_none _ _ (delete_branches_loop_reports_nothing _ _ _ _ _ _ w))
    (cleanup_loop_tallies limit _ fuel _ _ w
       (delete_branches_page_tallies transport limit org repo
          (auth_headers token)))) as H.
  cbv zeta in H.
  destruct (result loop) as [[[p c]|[]]| |]; exact H.
Qed.

Lemma close_issues_counts fuel org repo token limit w :
  let r := close_issues transport fuel org repo token limit w in
  capped limit (count_answered "PATCH" 200 (trace r)) ∧
  (totals (trace r) = [] ∨
   totals (trace r) = [count_answered "PATCH" 200 (trace r)]).
Proof.
  cbv zeta. unfold close_issues, count_answered. cbv zeta.
  rewrite bind_run.
  set (loop := while_true fuel _ _ w).
  pose proof (cleanup_total (answered "PATCH" 200) limit
    MsgFinishedIssues loop (λ _, eq_refl) (λ _, eq_refl)
    (omap_none _ _ (close_issues_loop_reports_nothing _ _ _ _ _ w))
    (cleanup_loop_tallies limit _ fuel _ _ w
       (close_issues_page_tallies transport limit (issues_url org repo)
          (auth_headers token)))) as H.
  cbv zeta in H.
  destruct (result loop) as [[[p c]|[]]| |]; exact H.
Qed.

(** X14: a positive limit caps the mutations that count.  With a limit
    [l > 0], tag and branch cleanup send at most [l] DELETE requests that
    are answered with 204, and issue closing sends at most [l] PATCH
    requests that are answered with 200, whatever the server answers and
    however long the run lasts. *)
Theorem X14_positive_limit_caps_mutations (fuel : nat)
    (org repo token : string) (l : Z) (w : W) :
  0 < l →
  count_answered "DELETE" 204
    (trace (delete_tags transport fuel org repo token (Some l) w)) ≤ l ∧
  count_answered "DELETE" 204
    (trace (delete_branches transport fuel org repo token (Some l) w)) ≤ l ∧
  count_answered "PATCH" 200
    (trace (close_issues transport fuel org repo token (Some l) w)) ≤ l.
Proof.
  intros Hl. split; [|split].
  - by apply (proj1 (delete_tags_counts fuel org repo token (Some l) w)).
  - by apply (proj1 (delete_branches_counts fuel org repo token (Some l) w)).
  - by apply (proj1 (close_issues_counts fuel org repo token (Some l) w)).
Qed.

(** X15: the total a cleanup reports is right.  Tag cleanup, branch cleanup
    and issue closing print a total at most once, and the number printed is
    the number of DELETE requests answered with 204 (of PATCH requests
    answered with 200 for issues) that the run has sent, with or without a
    limit. *)
Theorem X15_reported_total_is_the_count (fuel : nat)
    (org repo token : string) (limit : option Z) (w : W) :
  let tags := trace (delete_tags transport fuel org repo token limit w) in
  let branches :=
    trace (delete_branches transport fuel org repo token limit w) in
  let issues := trace (close_issues transport fuel org repo token limit w) in
  (totals tags = [] ∨ totals tags = [count_answered "DELETE" 204 tags]) ∧
  (totals branches = [] ∨
   totals branches = [count_answered "DELETE" 204 branches]) ∧
  (totals issues = [] ∨ totals issues = [count_answered "PATCH" 200 issues]).
Proof.
  cbv zeta. split; [|split].
  - apply (proj2 (delete_tags_counts fuel org repo token limit w)).
  - apply (proj2 (delete_branches_counts fuel org repo token limit w)).
  - apply (proj2 (close_issues_counts fuel org repo token limit w)).
Qed.
End Totals.

Lemma X14_positive_limit_caps_mutations_witness :
  let w := [listing [tag_v1; tag_v1]; no_content; no_content] in
  0 < 1 ∧
  count_answered "DELETE" 204
    (trace (delete_tags replay 3 "o" "r" "t" (Some 1) w)) ≤ 1 ∧
  count_answered "DELETE" 204
    (trace (delete_branches replay 3 "o" "r" "t" (Some 1) w)) ≤ 1 ∧
  count_answered "PATCH" 200
    (trace (close_issues replay 3 "o" "r" "t" (Some 1) w)) ≤ 1.
Proof.
  intros w. assert (H : 0 < 1) by lia. split; [exact H|].
  exact (X14_positive_limit_caps_mutations replay 3 "o" "r" "t" 1 w H).
Defined.
